(** * The tool-calling agent of [src/index.js]

    A shallow embedding of the three pieces of [src/index.js] that carry the
    design: the class [MCPClient] (one handle per tool provider, with the
    confirmation gate of [callTool]), the class [MCPAgent] (the tool cache
    built by [loadTools] and the turn loop of [processQuery]) and the
    function [getMCPClients] (transport selection from the configuration).

    The program is asynchronous but single threaded: every [await] is a
    point where the program hands control to a collaborator (the console,
    a provider, the LLM) and resumes with its answer or with the exception
    the collaborator raised.  The embedding is a state and exception monad
    over the objects the program mutates, together with the ordered trace
    of the requests sent to the collaborators.  The collaborators are
    deterministic oracles: the answer to a request is a function of the
    trace of everything that happened before it. *)

From Stdlib Require Import String Ascii List Bool Arith ZArith Lia.
From Stdlib Require Import DecimalString.
Import ListNotations.
Set Warnings "-register-all".
Local Open Scope string_scope.
Local Open Scope list_scope.

(** ** JavaScript values *)

(** JSON-compatible values, with [undefined].  An object is the list of its
    own properties in enumeration order.  Property names are ordinary data
    property names: the accessor [__proto__] that objects inherit and the
    numeric ordering of integer-like names are outside the model. *)
Inductive Value : Type :=
| VUndefined
| VNull
| VBool (b : bool)
| VNum (z : Z)
| VStr (s : string)
| VArr (items : list Value)
| VObj (props : list (string * Value)).

Definition Obj (V : Type) : Type := list (string * V).

(** [o[key]] as an own-property lookup. *)
Fixpoint obj_get {V : Type} (key : string) (o : Obj V) : option V :=
  match o with
  | [] => None
  | (k, v) :: rest => if String.eqb key k then Some v else obj_get key rest
  end.

(** [o[key] = v]: an existing property keeps its place, a new one is added
    last. *)
Fixpoint obj_set {V : Type} (key : string) (v : V) (o : Obj V) : Obj V :=
  match o with
  | [] => [(key, v)]
  | (k, v0) :: rest =>
      if String.eqb key k then (k, v) :: rest else (k, v0) :: obj_set key v rest
  end.

(** [Object.keys(o)], [Object.values(o)] and [key in o]. *)
Definition obj_keys {V : Type} (o : Obj V) : list string := map fst o.
Definition obj_values {V : Type} (o : Obj V) : list V := map snd o.
Definition obj_has {V : Type} (key : string) (o : Obj V) : bool :=
  match obj_get key o with Some _ => true | None => false end.

(** [o[key]] on an object of values: [undefined] when the property is
    missing. *)
Definition obj_lookup (key : string) (o : Obj Value) : Value :=
  match obj_get key o with Some v => v | None => VUndefined end.

(** [xs.includes(key)] on an array of strings. *)
Definition includes (key : string) (xs : list string) : bool :=
  existsb (String.eqb key) xs.

(** ** Data of the program *)

(** A tool as a provider lists it. *)
Record Tool : Type := {
  tool_name : string;
  tool_description : option string;
  inputSchema : Obj Value
}.

(** The function declaration handed to the LLM. *)
Record ToolDefinition : Type := {
  name : string;
  description : option string;
  parameters : Obj Value
}.

(** Clients are objects with identity: a handle names one of them. *)
Definition Handle : Type := nat.

(** An entry of [_cachedTools]. *)
Record Entry : Type := {
  definition : ToolDefinition;
  client : Handle
}.

Record ToolGroup : Type := {
  functionDeclarations : list ToolDefinition
}.

Record FunctionCall : Type := {
  fc_name : string;
  fc_args : Value
}.

Record FunctionResponse : Type := {
  fr_name : string;
  fr_response : Value
}.

(** A part of a turn: an object with optional fields.  A [functionCall]
    field, when present, holds an object, so that the two tests of the
    source, ['functionCall' in part] and [part.functionCall], agree. *)
Record Part : Type := {
  text : option string;
  functionCall : option FunctionCall;
  functionResponse : option FunctionResponse
}.

Record Content : Type := {
  parts : list Part;
  role : string
}.

Record Candidate : Type := {
  content : Content
}.

Record GenerateContentResponse : Type := {
  candidates : list Candidate
}.

(** What [callTool] returns. *)
Record CallOutcome : Type := {
  success : bool;
  response : Value
}.

(** The mutable fields of an [MCPClient]. *)
Record MCPClient : Type := {
  tools : option (list Tool);
  initialised : bool
}.

(** The mutable fields of the [MCPAgent]; [None] is [null]. *)
Record MCPAgent : Type := {
  mcpClients : list Handle;
  _cachedTools : option (Obj Entry)
}.

(** ** Exceptions, requests and the world *)

Inductive Exn : Type :=
| TypeError
| Error (message : string).

(** A request to a collaborator, as it appears in the trace. *)
Inductive Event : Type :=
| EvQuestion (prompt : string)
| EvLog (line : string)
| EvConnect (h : Handle)
| EvListTools (h : Handle)
| EvCallTool (h : Handle) (toolName : string) (args : Value)
| EvGenerate (model : string) (contents : list Content) (tls : list ToolGroup).

(** A settled promise. *)
Inductive Settled (A : Type) : Type :=
| Fulfilled (a : A)
| Rejected (e : Exn).
Arguments Fulfilled {A} a.
Arguments Rejected {A} e.

(** The collaborators and the two built-in conversions the program uses.
    Each answer depends on the trace of the requests made so far. *)
Record Env : Type := {
  rl_question : list Event -> string -> Settled string;
  mcp_connect : list Event -> Handle -> Settled unit;
  mcp_listTools : list Event -> Handle -> Settled (list Tool);
  mcp_callTool : list Event -> Handle -> string -> Value -> Settled Value;
  generateContent :
    list Event -> string -> list Content -> list ToolGroup ->
    Settled GenerateContentResponse;
  JSON_stringify : Value -> string;
  ToString : Value -> string
}.

Record World : Type := {
  agent : MCPAgent;
  clients : Handle -> MCPClient;
  trace : list Event
}.

Definition record_event (ev : Event) (w : World) : World :=
  {| agent := agent w; clients := clients w; trace := trace w ++ [ev] |}.

Definition set_client (h : Handle) (c : MCPClient) (w : World) : World :=
  {| agent := agent w;
     clients := fun h' => if Nat.eqb h' h then c else clients w h';
     trace := trace w |}.

Definition set_cachedTools (c : Obj Entry) (w : World) : World :=
  {| agent := {| mcpClients := mcpClients (agent w); _cachedTools := Some c |};
     clients := clients w;
     trace := trace w |}.

(** ** The monad *)

Inductive Outcome (A : Type) : Type :=
| Ok (a : A)
| Throw (e : Exn)
| OutOfFuel.
Arguments Ok {A} a.
Arguments Throw {A} e.
Arguments OutOfFuel {A}.

Definition M (A : Type) : Type := World -> Outcome A * World.

Definition ret {A : Type} (a : A) : M A := fun w => (Ok a, w).

Definition bind {A B : Type} (m : M A) (k : A -> M B) : M B :=
  fun w =>
    match m w with
    | (Ok a, w') => k a w'
    | (Throw e, w') => (Throw e, w')
    | (OutOfFuel, w') => (OutOfFuel, w')
    end.

Definition throw {A : Type} (e : Exn) : M A := fun w => (Throw e, w).

Definition out_of_fuel {A : Type} : M A := fun w => (OutOfFuel, w).

Declare Scope js_scope.
Delimit Scope js_scope with js.
Notation "x <- m ;; k" := (bind m (fun x => k))
  (at level 100, m at next level, right associativity) : js_scope.
Notation "m ;;; k" := (bind m (fun _ => k))
  (at level 100, right associativity) : js_scope.
Local Open Scope js_scope.

(** [await] of a request to a collaborator: the request is recorded, the
    answer is the oracle's at the trace before the request. *)
Definition await {A : Type} (ev : Event) (oracle : list Event -> Settled A)
  : M A :=
  fun w =>
    match oracle (trace w) with
    | Fulfilled a => (Ok a, record_event ev w)
    | Rejected e => (Throw e, record_event ev w)
    end.

(** [console.log]. *)
Definition console_log (line : string) : M unit :=
  fun w => (Ok tt, record_event (EvLog line) w).

Definition get_client (h : Handle) : M MCPClient :=
  fun w => (Ok (clients w h), w).

Definition put_client (h : Handle) (c : MCPClient) : M unit :=
  fun w => (Ok tt, set_client h c w).

Definition get_agent : M MCPAgent := fun w => (Ok (agent w), w).

Definition put_cachedTools (c : Obj Entry) : M unit :=
  fun w => (Ok tt, set_cachedTools c w).

(** A property access on [this._cachedTools]: a [TypeError] on [null]. *)
Definition the_cachedTools : M (Obj Entry) :=
  fun w =>
    match _cachedTools (agent w) with
    | Some c => (Ok c, w)
    | None => (Throw TypeError, w)
    end.

Section Program.

Variable env : Env.

(** ** class MCPClient (lines 17-60) *)

(** [initiate] (lines 28-32): connect once. *)
Definition initiate (h : Handle) : M unit :=
  this <- get_client h ;;
  if initialised this then ret tt
  else
    await (EvConnect h) (fun tr => mcp_connect env tr h) ;;;
    this <- get_client h ;;
    put_client h {| tools := tools this; initialised := true |}.

(** [getTool] (lines 34-43): connect if needed, list once, keep the list.
    A listed array, empty or not, is truthy, so it is never listed again. *)
Definition getTool (h : Handle) : M (list Tool) :=
  this <- get_client h ;;
  (if negb (initialised this) then initiate h else ret tt) ;;;
  this <- get_client h ;;
  match tools this with
  | None =>
      listed <- await (EvListTools h) (fun tr => mcp_listTools env tr h) ;;
      this <- get_client h ;;
      put_client h {| tools := Some listed; initialised := initialised this |} ;;;
      ret listed
  | Some cached => ret cached
  end.

(** The line feed that opens the prompt. *)
Definition nl : string := String (ascii_of_nat 10) EmptyString.

(** The template string of line 47. *)
Definition confirm_prompt (toolName : string) (args : Value) : string :=
  nl ++ "Type yes to confirm calling tool " ++ toolName ++ " with args "
     ++ JSON_stringify env args ++ " or anything else to cancel: ".

(** [callTool] (lines 45-55): ask, then cancel or call the provider. *)
Definition callTool (h : Handle) (toolName : string) (args : Value)
  : M CallOutcome :=
  answer <- await (EvQuestion (confirm_prompt toolName args))
                  (fun tr => rl_question env tr (confirm_prompt toolName args)) ;;
  if negb (String.eqb answer "yes") then
    console_log "Tool call cancelled." ;;;
    ret {| success := false; response := VNull |}
  else
    raw <- await (EvCallTool h toolName args)
                 (fun tr => mcp_callTool env tr h toolName args) ;;
    ret {| success := true; response := raw |}.

(** ** class MCPAgent (lines 63-165) *)

(** The [parameters] object of lines 76-79: the keys of the schema but the
    two excluded ones, each copied with its value. *)
Definition strip_schema (schema : Obj Value) : Obj Value :=
  fold_left
    (fun parameters key => obj_set key (obj_lookup key schema) parameters)
    (filter (fun key => negb (includes key ["additionalProperties"; "$schema"]))
            (obj_keys schema))
    [].

(** The body of [tools.map(tool => ...)] (lines 75-87). *)
Definition register_tool (mcpClient : Handle) (cache : Obj Entry) (tool : Tool)
  : Obj Entry :=
  obj_set (tool_name tool)
    {| definition :=
         {| name := tool_name tool;
            description := tool_description tool;
            parameters := strip_schema (inputSchema tool) |};
       client := mcpClient |}
    cache.

(** [for (let mcpClient of this.mcpClients)] (lines 73-88). *)
Fixpoint loadTools_each (hs : list Handle) : M unit :=
  match hs with
  | [] => ret tt
  | mcpClient :: rest =>
      listed <- getTool mcpClient ;;
      cache <- the_cachedTools ;;
      put_cachedTools (fold_left (register_tool mcpClient) listed cache) ;;;
      loadTools_each rest
  end.

(** The value returned at line 90: one group per entry, in the order of
    [Object.values]. *)
Definition declarations (cache : Obj Entry) : list ToolGroup :=
  map (fun tool => {| functionDeclarations := [definition tool] |})
      (obj_values cache).

(** [loadTools] (lines 70-91).  The cache is set to the empty object
    before the first client is asked, so a call that fails half way leaves
    a cache behind. *)
Definition loadTools : M (list ToolGroup) :=
  this <- get_agent ;;
  match _cachedTools this with
  | None => put_cachedTools [] ;;; loadTools_each (mcpClients this)
  | Some _ => ret tt
  end ;;;
  cache <- the_cachedTools ;;
  ret (declarations cache).

(** The response of line 130: what a call that did not succeed reports. *)
Definition failed_payload : Value :=
  VObj [("content",
         VObj [("type", VStr "text");
               ("text", VStr "Tool/Function call failed or was cancelled.")])].

(** The part pushed at lines 119-133. *)
Definition response_part (call : FunctionCall) (outcome : CallOutcome) : Part :=
  {| text := None;
     functionCall := None;
     functionResponse :=
       Some {| fr_name := fc_name call;
               fr_response :=
                 if success outcome then response outcome else failed_payload |} |}.

(** [for (let part of response.candidates[0].content.parts)] (lines
    113-134), with the array [functionResponseParts] built so far.  A name
    with no entry makes [this._cachedTools[name].client] a property access
    on [undefined]: a [TypeError]. *)
Fixpoint dispatch (ps : list Part) (functionResponseParts : list Part)
  : M (list Part) :=
  match ps with
  | [] => ret functionResponseParts
  | part :: rest =>
      match functionCall part with
      | None => dispatch rest functionResponseParts
      | Some call =>
          cache <- the_cachedTools ;;
          match obj_get (fc_name call) cache with
          | None => throw TypeError
          | Some entry =>
              outcome <- callTool (client entry) (fc_name call) (fc_args call) ;;
              dispatch rest (functionResponseParts ++ [response_part call outcome])
          end
      end
  end.

Definition model_id : string := "gemini-2.0-flash".

Definition no_functionCall (part : Part) : bool :=
  match functionCall part with Some _ => false | None => true end.

Inductive LoopStep : Type :=
| Break (result : GenerateContentResponse * list Content)
| Continue (currentContents : list Content).

(** One pass through the body of [while (true)] (lines 97-138).
    [loadTools] is awaited while the request is built, before
    [generateContent] is called; [candidates[0]] of an empty array is
    [undefined], whose [content] is a [TypeError]. *)
Definition loop_body (currentContents : list Content) : M LoopStep :=
  tls <- loadTools ;;
  reply <- await (EvGenerate model_id currentContents tls)
                 (fun tr => generateContent env tr model_id currentContents tls) ;;
  match candidates reply with
  | [] => throw TypeError
  | first :: _ =>
      let currentContents := currentContents ++ [content first] in
      if forallb no_functionCall (parts (content first)) then
        ret (Break (reply, currentContents))
      else
        functionResponseParts <- dispatch (parts (content first)) [] ;;
        ret (Continue
               (currentContents
                  ++ [{| parts := functionResponseParts; role := "user" |}]))
  end.

(** [while (true)] (line 96), with fuel: the source puts no bound on the
    number of rounds. *)
Fixpoint processQuery_loop (fuel : nat) (currentContents : list Content)
  : M (GenerateContentResponse * list Content) :=
  match fuel with
  | O => out_of_fuel
  | S fuel' =>
      step <- loop_body currentContents ;;
      match step with
      | Break result => ret result
      | Continue currentContents' => processQuery_loop fuel' currentContents'
      end
  end.

Definition text_part (s : string) : Part :=
  {| text := Some s; functionCall := None; functionResponse := None |}.

(** [processQuery] (lines 93-142). *)
Definition processQuery (fuel : nat) (query : string) (role : string)
  (savedContent : list Content)
  : M (GenerateContentResponse * list Content) :=
  processQuery_loop fuel
    (savedContent ++ [{| parts := [text_part query]; role := role |}]).

(** ** getMCPClients (lines 167-182) *)

Inductive Transport : Type :=
| StdioClientTransport (command : Value) (args : Value)
| StreamableHTTPClientTransport (url : Value)
| SSEClientTransport (url : Value).

(** A freshly constructed [MCPClient]: its transport and its two fields.
    The display name given to the SDK client is not modelled. *)
Record NewClient : Type := {
  transport : Transport;
  fresh : MCPClient
}.

Definition new_MCPClient (t : Transport) : NewClient :=
  {| transport := t; fresh := {| tools := None; initialised := false |} |}.

Definition value_eqb_str (v : Value) (s : string) : bool :=
  match v with VStr s' => String.eqb s' s | _ => false end.

(** The callback of [Object.entries(mcpConfig).map(...)]. *)
Definition make_client (config : Obj Value) : Settled NewClient :=
  if negb (obj_has "url" config) then
    Fulfilled (new_MCPClient
                 (StdioClientTransport (obj_lookup "command" config)
                                       (obj_lookup "args" config)))
  else if value_eqb_str (obj_lookup "type" config) "http" then
    Fulfilled (new_MCPClient (StreamableHTTPClientTransport (obj_lookup "url" config)))
  else if value_eqb_str (obj_lookup "type" config) "sse" then
    Fulfilled (new_MCPClient (SSEClientTransport (obj_lookup "url" config)))
  else
    Rejected (Error ("Unknown transport type: "
                       ++ ToString env (obj_lookup "type" config))).

(** [Object.entries(mcpConfig).map(...)]: the first exception ends it. *)
Fixpoint getMCPClients (mcpConfig : Obj (Obj Value)) : Settled (list NewClient) :=
  match mcpConfig with
  | [] => Fulfilled []
  | (_, config) :: rest =>
      match make_client config with
      | Rejected e => Rejected e
      | Fulfilled c =>
          match getMCPClients rest with
          | Rejected e => Rejected e
          | Fulfilled cs => Fulfilled (c :: cs)
          end
      end
  end.

End Program.

(** ** Reading the trace *)

(** The prompts of the [rl.question] requests, oldest first. *)
Fixpoint questions (evs : list Event) : list string :=
  match evs with
  | [] => []
  | EvQuestion prompt :: rest => prompt :: questions rest
  | _ :: rest => questions rest
  end.

(** The [mcp.callTool] requests that reached a provider, oldest first. *)
Fixpoint provider_calls (evs : list Event) : list (Handle * string * Value) :=
  match evs with
  | [] => []
  | EvCallTool h toolName args :: rest => (h, toolName, args) :: provider_calls rest
  | _ :: rest => provider_calls rest
  end.

(** The number of [generateContent] round trips. *)
Fixpoint round_trips (evs : list Event) : nat :=
  match evs with
  | [] => 0
  | EvGenerate _ _ _ :: rest => S (round_trips rest)
  | _ :: rest => round_trips rest
  end.

(** The number of [mcp.listTools] queries sent to the provider of [h]. *)
Fixpoint listTools_queries (h : Handle) (evs : list Event) : nat :=
  match evs with
  | [] => 0
  | EvListTools h' :: rest =>
      (if Nat.eqb h' h then 1 else 0) + listTools_queries h rest
  | _ :: rest => listTools_queries h rest
  end.

(** The number of requests sent to any provider: connect, list, call. *)
Fixpoint provider_queries (evs : list Event) : nat :=
  match evs with
  | [] => 0
  | EvConnect _ :: rest => S (provider_queries rest)
  | EvListTools _ :: rest => S (provider_queries rest)
  | EvCallTool _ _ _ :: rest => S (provider_queries rest)
  | _ :: rest => provider_queries rest
  end.

(** The function calls of a reply, in the order of its parts. *)
Fixpoint calls_of (ps : list Part) : list FunctionCall :=
  match ps with
  | [] => []
  | part :: rest =>
      match functionCall part with
      | Some call => call :: calls_of rest
      | None => calls_of rest
      end
  end.

(** A trace that holds connection and listing requests only. *)
Definition is_setup (ev : Event) : bool :=
  match ev with
  | EvConnect _ | EvListTools _ => true
  | _ => false
  end.

Definition setup_only (evs : list Event) : bool := forallb is_setup evs.

(** ** Reading the registry *)

(** The tools that the configured clients hold in their [tools] field,
    each paired with its owner, in the order [loadTools] walks them:
    client after client, and tool after tool within a client. *)
Definition registrations (cs : Handle -> MCPClient) (hs : list Handle)
  : list (Handle * Tool) :=
  flat_map
    (fun h =>
       match tools (cs h) with
       | Some listed => map (pair h) listed
       | None => []
       end)
    hs.

(** Registering a sequence of owned tools, one after the other. *)
Definition register_all (regs : list (Handle * Tool)) (cache : Obj Entry)
  : Obj Entry :=
  fold_left (fun c r => register_tool (fst r) c (snd r)) regs cache.

(** The last tool of a sequence that carries the given name. *)
Fixpoint last_named (n : string) (regs : list (Handle * Tool))
  : option (Handle * Tool) :=
  match regs with
  | [] => None
  | r :: rest =>
      match last_named n rest with
      | Some later => Some later
      | None => if String.eqb n (tool_name (snd r)) then Some r else None
      end
  end.

(** The cache entry that [loadTools] builds for a tool of a client. *)
Definition entry_for (h : Handle) (tool : Tool) : Entry :=
  {| definition :=
       {| name := tool_name tool;
          description := tool_description tool;
          parameters := strip_schema (inputSchema tool) |};
     client := h |}.

(** A [parameters] object that is its [schema] without the two
    provider-only keys: neither key is in it, and every other key has the
    value it has in the schema (or is missing from both). *)
Definition stripped_of (schema params : Obj Value) : Prop :=
  obj_get "additionalProperties" params = None
  /\ obj_get "$schema" params = None
  /\ forall key,
       key <> "additionalProperties" -> key <> "$schema" ->
       obj_get key params = obj_get key schema.

(** Providers that accept every connection and answer every listing. *)
Definition providers_answer (env : Env) : Prop :=
  (forall tr h, exists u, mcp_connect env tr h = Fulfilled u)
  /\ (forall tr h, exists listed, mcp_listTools env tr h = Fulfilled listed).

(** ** The dispatch phase, as the specification words it

    From a trace [tr], the calls of a reply are served one after the
    other, in order: the owner of the tool is looked up in the registry,
    the operator is asked, and either the operator types yes, the owner is
    called and the response part carries the raw answer, or the operator
    types anything else and the response part carries the fixed payload.
    [Dispatched env cache tr calls responses evs] relates the calls to the
    response parts and to the requests [evs] sent meanwhile. *)
Inductive Dispatched (env : Env) (cache : Obj Entry)
  : list Event -> list FunctionCall -> list Part -> list Event -> Prop :=
| Dispatched_done (tr : list Event) :
    Dispatched env cache tr [] [] []
| Dispatched_confirmed
    (tr : list Event) (call : FunctionCall) (calls : list FunctionCall)
    (entry : Entry) (raw : Value) (frs : list Part) (evs : list Event) :
    obj_get (fc_name call) cache = Some entry ->
    rl_question env tr (confirm_prompt env (fc_name call) (fc_args call))
    = Fulfilled "yes" ->
    mcp_callTool env
      (tr ++ [EvQuestion (confirm_prompt env (fc_name call) (fc_args call))])
      (client entry) (fc_name call) (fc_args call)
    = Fulfilled raw ->
    Dispatched env cache
      (tr ++ [EvQuestion (confirm_prompt env (fc_name call) (fc_args call));
              EvCallTool (client entry) (fc_name call) (fc_args call)])
      calls frs evs ->
    Dispatched env cache tr (call :: calls)
      ({| text := None;
          functionCall := None;
          functionResponse :=
            Some {| fr_name := fc_name call; fr_response := raw |} |} :: frs)
      (EvQuestion (confirm_prompt env (fc_name call) (fc_args call))
         :: EvCallTool (client entry) (fc_name call) (fc_args call) :: evs)
| Dispatched_cancelled
    (tr : list Event) (call : FunctionCall) (calls : list FunctionCall)
    (entry : Entry) (answer : string) (frs : list Part) (evs : list Event) :
    obj_get (fc_name call) cache = Some entry ->
    rl_question env tr (confirm_prompt env (fc_name call) (fc_args call))
    = Fulfilled answer ->
    answer <> "yes" ->
    Dispatched env cache
      (tr ++ [EvQuestion (confirm_prompt env (fc_name call) (fc_args call));
              EvLog "Tool call cancelled."])
      calls frs evs ->
    Dispatched env cache tr (call :: calls)
      ({| text := None;
          functionCall := None;
          functionResponse :=
            Some {| fr_name := fc_name call; fr_response := failed_payload |} |}
         :: frs)
      (EvQuestion (confirm_prompt env (fc_name call) (fc_args call))
         :: EvLog "Tool call cancelled." :: evs).

(** The confirmation prompt of a function call. *)
Definition prompt_of (env : Env) (call : FunctionCall) : string :=
  confirm_prompt env (fc_name call) (fc_args call).

(** ** Runs that set the providers up *)

(** The listing queries that a run may still send to a client: none when
    its tools are already held, one otherwise. *)
Definition listing_budget (w : World) (h : Handle) : nat :=
  match tools (clients w h) with Some _ => 0 | None => 1 end.

Definition is_Ok {A : Type} (o : Outcome A) : bool :=
  match o with Ok _ => true | _ => false end.

(** What a run that talks to providers only to connect and to list leaves
    behind: new requests at the end of the trace, no more listing queries
    per client than budgeted (and, when the run [finished] normally, the
    budget that is left accounted for), tools never forgotten, the agent's
    client list kept. *)
Definition setup_run (finished : bool) (w w' : World) : Prop :=
  exists evs,
    trace w' = trace w ++ evs
    /\ setup_only evs = true
    /\ (forall h, listTools_queries h evs
                  + (if finished then listing_budget w' h else 0)
                  <= listing_budget w h)
    /\ (forall h listed,
          tools (clients w h) = Some listed -> tools (clients w' h) = Some listed)
    /\ mcpClients (agent w') = mcpClients (agent w).

(** Closes a goal stating that a request to the client [h] leaves the
    other clients alone. *)
Ltac frame_of h :=
  let h0 := fresh "h0" in
  let Hne := fresh "Hne" in
  intros h0 Hne; simpl;
  repeat match goal with
         | |- context [Nat.eqb ?a ?b] =>
             destruct (Nat.eqb_spec a b); [congruence | simpl]
         end;
  reflexivity.

(** ** A scripted environment

    Concrete collaborators to run the program on: the operator types the
    given lines in order, the LLM answers with the given replies in order,
    every provider accepts the connection, lists its catalog and answers a
    call through [answer]. *)

(** The double quote character. *)
Definition dq : string := String (ascii_of_nat 34) EmptyString.

Fixpoint show_value (v : Value) : string :=
  match v with
  | VUndefined => "undefined"
  | VNull => "null"
  | VBool true => "true"
  | VBool false => "false"
  | VNum z => NilZero.string_of_int (Z.to_int z)
  | VStr s => dq ++ s ++ dq
  | VArr items =>
      "[" ++ (fix go (xs : list Value) : string :=
                match xs with
                | [] => EmptyString
                | x :: rest =>
                    (show_value x
                     ++ match rest with [] => EmptyString | _ :: _ => "," end
                     ++ go rest)%string
                end) items ++ "]"
  | VObj props =>
      "{" ++ (fix go (xs : list (string * Value)) : string :=
                match xs with
                | [] => EmptyString
                | (k, x) :: rest =>
                    (dq ++ k ++ dq ++ ":" ++ show_value x
                     ++ match rest with [] => EmptyString | _ :: _ => "," end
                     ++ go rest)%string
                end) props ++ "}"
  end.

Definition scripted (lines : list string)
  (replies : list GenerateContentResponse)
  (catalog : Handle -> list Tool) (answer : string -> Value -> Value) : Env :=
  {| rl_question := fun tr _ =>
       match nth_error lines (length (questions tr)) with
       | Some line => Fulfilled line
       | None => Rejected (Error "readline was closed")
       end;
     mcp_connect := fun _ _ => Fulfilled tt;
     mcp_listTools := fun _ h => Fulfilled (catalog h);
     mcp_callTool := fun _ _ toolName args => Fulfilled (answer toolName args);
     generateContent := fun tr _ _ _ =>
       match nth_error replies (round_trips tr) with
       | Some reply => Fulfilled reply
       | None => Rejected (Error "no scripted reply left")
       end;
     JSON_stringify := show_value;
     ToString := fun v => match v with VStr s => s | _ => show_value v end |}.

(** A world at startup: no client connected, no tool cached. *)
Definition startup (handles : list Handle) : World :=
  {| agent := {| mcpClients := handles; _cachedTools := None |};
     clients := fun _ => {| tools := None; initialised := false |};
     trace := [] |}.

Definition number_schema : Value := VObj [("type", VStr "number")].

Definition add_tool : Tool :=
  {| tool_name := "add";
     tool_description := Some "Adds two numbers";
     inputSchema :=
       [("type", VStr "object");
        ("properties", VObj [("a", number_schema); ("b", number_schema)]);
        ("required", VArr [VStr "a"; VStr "b"]);
        ("additionalProperties", VBool false);
        ("$schema", VStr "http://json-schema.org/draft-07/schema#")] |}.

Definition other_add_tool : Tool :=
  {| tool_name := "add";
     tool_description := Some "Appends an item";
     inputSchema :=
       [("type", VStr "object");
        ("properties", VObj [("item", VObj [("type", VStr "string")])])] |}.

Definition echo_tool : Tool :=
  {| tool_name := "echo";
     tool_description := None;
     inputSchema := [("$schema", VStr "x"); ("type", VStr "object")] |}.

Definition demo_catalog (h : Handle) : list Tool :=
  match h with
  | 0 => [add_tool; echo_tool]
  | 1 => [other_add_tool]
  | _ => []
  end.

Definition text_result (s : string) : Value :=
  VObj [("content", VArr [VObj [("type", VStr "text"); ("text", VStr s)]])].

Definition demo_answer (toolName : string) (args : Value) : Value :=
  if String.eqb toolName "add" then text_result "4" else text_result "ok".

Definition call_part (toolName : string) (args : Value) : Part :=
  {| text := None;
     functionCall := Some {| fc_name := toolName; fc_args := args |};
     functionResponse := None |}.

Definition model_reply (ps : list Part) : GenerateContentResponse :=
  {| candidates := [{| content := {| parts := ps; role := "model" |} |}] |}.

Definition two_plus_two : Value := VObj [("a", VNum 2); ("b", VNum 2)].

(** The end-to-end scenario of the specification: the model asks for
    [add], the operator confirms, the model answers in text. *)
Definition demo_env : Env :=
  scripted ["yes"]
    [model_reply [call_part "add" two_plus_two]; model_reply [text_part "4"]]
    demo_catalog demo_answer.

(** The model asks for two tools in one reply; the operator confirms the
    first call and declines the second. *)
Definition demo_env_two_calls : Env :=
  scripted ["yes"; "no"]
    [model_reply [call_part "add" two_plus_two; text_part "and";
                  call_part "echo" (VObj [("s", VStr "hi")])];
     model_reply [text_part "done"]]
    demo_catalog demo_answer.

(** The model asks for a tool that no provider lists. *)
Definition demo_env_unknown_tool : Env :=
  scripted ["yes"]
    [model_reply [call_part "subtract" two_plus_two]; model_reply [text_part "0"]]
    demo_catalog demo_answer.

(** ** The chat session of [chatLoop] (lines 144-164)

    [String.prototype.toLowerCase] is a built-in of the language: it is a
    parameter of the session. *)

Section Chat.

Variable env : Env.
Variable toLowerCase : string -> string.

(** The first turn of every session (line 145). *)
Definition system_turn : Content :=
  {| parts :=
       [text_part
          "You are a helpful AI assistant. USE AVAILABLE TOOLS FOR ANY INFORMATION YOU NEED BEFORE ASKING FOR THAT"];
     role := "user" |}.

(** The prompt of line 153. *)
Definition you_prompt : string := nl ++ "You: ".

(** Line 159: [console.log("\nAI: " + response.candidates[0].content.parts[0].text)].
    A missing candidate or a missing first part is a property access on
    [undefined]; a first part without text prints as [undefined]. *)
Definition print_reply (reply : GenerateContentResponse) : M unit :=
  match candidates reply with
  | [] => throw TypeError
  | first :: _ =>
      match parts (content first) with
      | [] => throw TypeError
      | part :: _ =>
          console_log
            (nl ++ "AI: "
                ++ match text part with Some s => s | None => "undefined" end)
      end
  end.

(** [while (true)] of lines 152-160, with fuel for the number of lines
    read ([rounds]) and for each query ([fuel]). *)
Fixpoint chatLoop_rounds (rounds fuel : nat) (history : list Content) : M unit :=
  match rounds with
  | O => out_of_fuel
  | S rounds' =>
      message <- await (EvQuestion you_prompt)
                       (fun tr => rl_question env tr you_prompt) ;;
      if String.eqb (toLowerCase message) "quit" then ret tt
      else
        result <- processQuery env fuel message "user" history ;;
        print_reply (fst result) ;;;
        chatLoop_rounds rounds' fuel (snd result)
  end.

(** [chatLoop]: the two banner lines, the loop, and [rl.close()] in the
    [finally] block whatever the outcome; the boolean tells that the
    console interface is closed. *)
Definition chatLoop (rounds fuel : nat) (w : World)
  : Outcome unit * (World * bool) :=
  let run :=
    (console_log (nl ++ "MCP Agent Started!") ;;;
     console_log "Type your queries or 'quit' to exit." ;;;
     chatLoop_rounds rounds fuel [system_turn]) w in
  (fst run, (snd run, true)).

End Chat.

(** ** More readings of the trace *)

(** The number of [mcp.connect] requests sent to the provider of [h]. *)
Fixpoint connect_queries (h : Handle) (evs : list Event) : nat :=
  match evs with
  | [] => 0
  | EvConnect h' :: rest =>
      (if Nat.eqb h' h then 1 else 0) + connect_queries h rest
  | _ :: rest => connect_queries h rest
  end.

(** The connection requests that a run may still send to a client. *)
Definition connect_budget (w : World) (h : Handle) : nat :=
  if initialised (clients w h) then 0 else 1.

(** A run that sends no more connection requests per client than
    budgeted (with the budget left accounted for when it [finished]
    normally) and loses nothing of what the clients hold. *)
Definition connect_run (finished : bool) (w w' : World) : Prop :=
  exists evs,
    trace w' = trace w ++ evs
    /\ (forall h, connect_queries h evs
                  + (if finished then connect_budget w' h else 0)
                  <= connect_budget w h)
    /\ (forall h,
          (initialised (clients w h) = true -> initialised (clients w' h) = true)
          /\ (forall listed,
                tools (clients w h) = Some listed ->
                tools (clients w' h) = Some listed)).

(** Closes the side goals of a step that touches the client [h] only. *)
Ltac one_client h :=
  simpl; auto;
  try (rewrite <- app_assoc; reflexivity);
  try (frame_of h);
  try (unfold connect_budget; simpl; rewrite ?Nat.eqb_refl; simpl;
       repeat match goal with
              | H : initialised _ = _ |- _ => rewrite H
              end;
       simpl; lia);
  try (intros; rewrite ?Nat.eqb_refl; simpl; congruence).

(** Every provider call among the requests [evs] sent after the trace
    [tr] comes right after the confirmation question for that very call,
    which the operator answered with yes. *)
Definition gated (env : Env) (tr evs : list Event) : Prop :=
  forall before h toolName args after,
    evs = before ++ EvCallTool h toolName args :: after ->
    exists earlier,
      before = earlier ++ [EvQuestion (confirm_prompt env toolName args)]
      /\ rl_question env (tr ++ earlier) (confirm_prompt env toolName args)
         = Fulfilled "yes".

(** A run that only adds gated requests to the trace. *)
Definition gated_run (env : Env) (w w' : World) : Prop :=
  exists evs, trace w' = trace w ++ evs /\ gated env (trace w) evs.


(** A run that leaves the agent and the clients as they are and sends
    no connection or listing request. *)
Definition untouched_run (w w' : World) : Prop :=
  agent w' = agent w
  /\ clients w' = clients w
  /\ exists evs,
       trace w' = trace w ++ evs
       /\ forallb (fun ev => negb (is_setup ev)) evs = true.

(** ** The shape of a history *)

(** A user turn that answers the calls of a model turn: one part per
    call, in order, each a function response named after its call. *)
Definition answers_calls (asked answered : Content) : Prop :=
  role answered = "user"
  /\ Forall2
       (fun call part =>
          text part = None
          /\ functionCall part = None
          /\ exists fr, functionResponse part = Some fr
                        /\ fr_name fr = fc_name call)
       (calls_of (parts asked)) (parts answered).

(** The turns of a list of rounds, each a model turn and its answer. *)
Definition turns_of (rounds : list (Content * Content)) : list Content :=
  flat_map (fun r => [fst r; snd r]) rounds.

(** The function calls made over a list of rounds. *)
Definition calls_in (rounds : list (Content * Content)) : list FunctionCall :=
  flat_map (fun r => calls_of (parts (fst r))) rounds.

(** ** Collaborators that keep the loop going *)

(** A model that, whatever it is sent, asks for at least one tool, and
    only for tools that the [cache] knows. *)
Definition always_asks (env : Env) (cache : Obj Entry) : Prop :=
  forall tr model cc tls,
    exists reply first others,
      generateContent env tr model cc tls = Fulfilled reply
      /\ candidates reply = first :: others
      /\ calls_of (parts (content first)) <> []
      /\ Forall (fun call => obj_get (fc_name call) cache <> None)
                (calls_of (parts (content first))).

(** An operator who answers every question. *)
Definition operator_answers (env : Env) : Prop :=
  forall tr prompt, exists answer, rl_question env tr prompt = Fulfilled answer.

(** Providers that answer every call. *)
Definition calls_answered (env : Env) : Prop :=
  forall tr h toolName args,
    exists raw, mcp_callTool env tr h toolName args = Fulfilled raw.

(** ** Descriptors that [getMCPClients] accepts *)

(** The tests of lines 169-177 that do not reach the [throw]. *)
Definition acceptable (config : Obj Value) : bool :=
  negb (obj_has "url" config)
  || value_eqb_str (obj_lookup "type" config) "http"
  || value_eqb_str (obj_lookup "type" config) "sse".

(** A run in which a provider call that the provider rejects is the last
    request sent, and whose outcome is the exception of that rejection. *)
Definition rejection_raises {A : Type} (env : Env) (w : World)
  (run : Outcome A * World) : Prop :=
  exists evs,
    trace (snd run) = trace w ++ evs
    /\ forall before h toolName args after e,
         evs = before ++ EvCallTool h toolName args :: after ->
         mcp_callTool env (trace w ++ before) h toolName args = Rejected e ->
         fst run = Throw e /\ after = [].

(** ** More scripted environments *)

(** A model that asks for [add] again at every round, an operator who
    confirms every call. *)
Definition eager_env : Env :=
  {| rl_question := fun _ _ => Fulfilled "yes";
     mcp_connect := fun _ _ => Fulfilled tt;
     mcp_listTools := fun _ h => Fulfilled (demo_catalog h);
     mcp_callTool := fun _ _ toolName args => Fulfilled (demo_answer toolName args);
     generateContent := fun _ _ _ _ =>
       Fulfilled (model_reply [call_part "add" two_plus_two]);
     JSON_stringify := show_value;
     ToString := show_value |}.

(** The provider of client 1 rejects the listing; the others answer. *)
Definition flaky_env : Env :=
  {| rl_question := fun _ _ => Fulfilled "yes";
     mcp_connect := fun _ _ => Fulfilled tt;
     mcp_listTools := fun _ h =>
       match h with
       | 1 => Rejected (Error "connection reset")
       | _ => Fulfilled (demo_catalog h)
       end;
     mcp_callTool := fun _ _ _ _ => Rejected (Error "tool crashed");
     generateContent := fun _ _ _ _ =>
       Fulfilled (model_reply [call_part "echo" (VObj []);
                               call_part "add" two_plus_two]);
     JSON_stringify := show_value;
     ToString := show_value |}.

(** The model asks for [echo] and [add] in one reply; the operator
    declines the first call and confirms the second, which the provider
    rejects. *)
Definition decline_then_crash_env : Env :=
  {| rl_question := fun tr _ =>
       match length (questions tr) with
       | 0 => Fulfilled "no"
       | _ => Fulfilled "yes"
       end;
     mcp_connect := fun _ _ => Fulfilled tt;
     mcp_listTools := fun _ h => Fulfilled (demo_catalog h);
     mcp_callTool := fun _ _ _ _ => Rejected (Error "tool crashed");
     generateContent := fun _ _ _ _ =>
       Fulfilled (model_reply [call_part "echo" (VObj []);
                               call_part "add" two_plus_two]);
     JSON_stringify := show_value;
     ToString := show_value |}.

(** ASCII lower case, to run the chat session on examples. *)
Definition ascii_lower (c : ascii) : ascii :=
  let n := nat_of_ascii c in
  if andb (Nat.leb 65 n) (Nat.leb n 90) then ascii_of_nat (n + 32) else c.

Fixpoint lower (s : string) : string :=
  match s with
  | EmptyString => EmptyString
  | String c rest => String (ascii_lower c) (lower rest)
  end.

(** * Properties *)

(** ** The monad and the trace *)

Lemma bind_Ok {A B : Type} (m : M A) (k : A -> M B) w a w1 :
  m w = (Ok a, w1) -> bind m k w = k a w1.
Proof. intros Hm. unfold bind. rewrite Hm. reflexivity. Qed.

Lemma bind_inv_Ok {A B : Type} (m : M A) (k : A -> M B) w b w2 :
  bind m k w = (Ok b, w2) ->
  exists a w1, m w = (Ok a, w1) /\ k a w1 = (Ok b, w2).
Proof.
  unfold bind. destruct (m w) as [[a | e |] w1]; intros H.
  - exists a, w1. split; [reflexivity | exact H].
  - discriminate.
  - discriminate.
Qed.

Lemma questions_app evs1 evs2 :
  questions (evs1 ++ evs2) = questions evs1 ++ questions evs2.
Proof.
  induction evs1 as [| ev evs1 IH]; simpl; [reflexivity |].
  destruct ev; simpl; rewrite IH; reflexivity.
Qed.

Lemma provider_calls_app evs1 evs2 :
  provider_calls (evs1 ++ evs2) = provider_calls evs1 ++ provider_calls evs2.
Proof.
  induction evs1 as [| ev evs1 IH]; simpl; [reflexivity |].
  destruct ev; simpl; rewrite IH; reflexivity.
Qed.

Lemma round_trips_app evs1 evs2 :
  round_trips (evs1 ++ evs2) = round_trips evs1 + round_trips evs2.
Proof.
  induction evs1 as [| ev evs1 IH]; simpl; [reflexivity |].
  destruct ev; simpl; rewrite IH; reflexivity.
Qed.

Lemma listTools_queries_app h evs1 evs2 :
  listTools_queries h (evs1 ++ evs2)
  = listTools_queries h evs1 + listTools_queries h evs2.
Proof.
  induction evs1 as [| ev evs1 IH]; simpl; [reflexivity |].
  destruct ev; simpl; rewrite IH; lia.
Qed.

(** ** The confirmation gate *)

(** What [callTool] does once the operator's line is known. *)
Lemma callTool_run env h toolName args w answer :
  rl_question env (trace w) (confirm_prompt env toolName args) = Fulfilled answer ->
  let asked := record_event (EvQuestion (confirm_prompt env toolName args)) w in
  callTool env h toolName args w =
    if String.eqb answer "yes" then
      (match mcp_callTool env (trace asked) h toolName args with
       | Fulfilled raw => Ok {| success := true; response := raw |}
       | Rejected e => Throw e
       end,
       record_event (EvCallTool h toolName args) asked)
    else
      (Ok {| success := false; response := VNull |},
       record_event (EvLog "Tool call cancelled.") asked).
Proof.
  intros Hline asked. unfold callTool, bind, await. rewrite Hline.
  destruct (String.eqb answer "yes"); simpl.
  - subst asked. simpl.
    destruct (mcp_callTool env _ h toolName args); reflexivity.
  - reflexivity.
Qed.

(** C1. [callTool] first asks the operator one question.  When the line
    read is anything but the exact string yes, the provider is not called
    (the trace gains the question and the cancellation message only) and
    the outcome is [{success: false, response: null}].  When the line is
    yes, the provider is called exactly once, right after the question,
    and its raw response is returned with [success: true] (an exception
    of the provider propagates). *)
Theorem callTool_confirmation_gate env h toolName args w answer :
  rl_question env (trace w) (confirm_prompt env toolName args) = Fulfilled answer ->
  let asked := record_event (EvQuestion (confirm_prompt env toolName args)) w in
  let run := callTool env h toolName args w in
  (answer <> "yes" ->
     run = (Ok {| success := false; response := VNull |},
            record_event (EvLog "Tool call cancelled.") asked)
     /\ provider_calls (trace (snd run)) = provider_calls (trace w))
  /\ (answer = "yes" ->
     run = (match mcp_callTool env (trace asked) h toolName args with
            | Fulfilled raw => Ok {| success := true; response := raw |}
            | Rejected e => Throw e
            end,
            record_event (EvCallTool h toolName args) asked)
     /\ provider_calls (trace (snd run))
        = provider_calls (trace w) ++ [(h, toolName, args)]).
Proof.
  intros Hline asked run.
  pose proof (callTool_run env h toolName args w answer Hline) as Hrun.
  cbv zeta in Hrun. fold asked in Hrun. fold run in Hrun.
  split; intros Hanswer.
  - apply String.eqb_neq in Hanswer. rewrite Hanswer in Hrun.
    split; [exact Hrun |]. rewrite Hrun. simpl.
    rewrite !provider_calls_app. simpl. rewrite !app_nil_r. reflexivity.
  - apply String.eqb_eq in Hanswer. rewrite Hanswer in Hrun.
    split; [exact Hrun |]. rewrite Hrun. simpl.
    rewrite !provider_calls_app. simpl. rewrite app_nil_r. reflexivity.
Qed.

Lemma callTool_confirmation_gate_witness :
  callTool demo_env 1 "add" two_plus_two (startup [0; 1])
  = (Ok {| success := true; response := text_result "4" |},
     record_event (EvCallTool 1 "add" two_plus_two)
       (record_event (EvQuestion (confirm_prompt demo_env "add" two_plus_two))
          (startup [0; 1])))
  /\ fst (callTool (scripted ["Yes"] [] demo_catalog demo_answer)
            1 "add" two_plus_two (startup [0; 1]))
     = Ok {| success := false; response := VNull |}.
Proof.
  split.
  - exact (proj1 (proj2 (callTool_confirmation_gate demo_env 1 "add" two_plus_two
                           (startup [0; 1]) "yes" eq_refl) eq_refl)).
  - assert (Hno : "Yes" <> "yes") by discriminate.
    rewrite (proj1 (proj1 (callTool_confirmation_gate
                             (scripted ["Yes"] [] demo_catalog demo_answer)
                             1 "add" two_plus_two (startup [0; 1]) "Yes" eq_refl)
                      Hno)).
    reflexivity.
Defined.

(** ** Objects *)

Lemma obj_get_set {V : Type} (key k : string) (v : V) (o : Obj V) :
  obj_get key (obj_set k v o) = if String.eqb key k then Some v else obj_get key o.
Proof.
  induction o as [| [k0 v0] o IH]; simpl.
  - reflexivity.
  - destruct (String.eqb_spec k k0) as [-> | Hk]; simpl.
    + destruct (String.eqb key k0); reflexivity.
    + rewrite IH. destruct (String.eqb_spec key k0) as [-> | Hkey].
      * destruct (String.eqb_spec k0 k) as [-> | _]; [contradiction Hk |]; reflexivity.
      * reflexivity.
Qed.

Lemma obj_keys_set {V : Type} (k : string) (v : V) (o : Obj V) :
  obj_keys (obj_set k v o)
  = if includes k (obj_keys o) then obj_keys o else obj_keys o ++ [k].
Proof.
  unfold obj_keys, includes. induction o as [| [k0 v0] o IH]; simpl.
  - reflexivity.
  - destruct (String.eqb_spec k k0) as [-> | Hk]; simpl.
    + reflexivity.
    + rewrite IH. destruct (existsb (String.eqb k) (map fst o)); reflexivity.
Qed.

Lemma includes_In (key : string) (xs : list string) :
  includes key xs = true <-> In key xs.
Proof.
  unfold includes. rewrite existsb_exists. split.
  - intros [x [Hx Heq]]. apply String.eqb_eq in Heq. subst x. exact Hx.
  - intros Hin. exists key. split; [exact Hin | apply String.eqb_refl].
Qed.

Lemma obj_get_None_keys {V : Type} (key : string) (o : Obj V) :
  obj_get key o = None <-> includes key (obj_keys o) = false.
Proof.
  unfold includes, obj_keys. induction o as [| [k v] o IH]; simpl.
  - split; reflexivity.
  - destruct (String.eqb key k); simpl; [split; discriminate | exact IH].
Qed.

Lemma NoDup_obj_keys_set {V : Type} (k : string) (v : V) (o : Obj V) :
  NoDup (obj_keys o) -> NoDup (obj_keys (obj_set k v o)).
Proof.
  intros Hnd. rewrite obj_keys_set.
  destruct (includes k (obj_keys o)) eqn:Hin; [exact Hnd |].
  apply NoDup_app; [exact Hnd | repeat constructor; intros [] | ].
  intros x Hx [<- | []]. apply includes_In in Hx. congruence.
Qed.

(** ** Stripping the provider-only keys of a schema *)

Lemma includes_filter (f : string -> bool) (key : string) (xs : list string) :
  includes key (filter f xs) = f key && includes key xs.
Proof.
  unfold includes. induction xs as [| x xs IH]; simpl.
  - rewrite andb_false_r. reflexivity.
  - destruct (f x) eqn:Hfx; simpl; rewrite IH.
    + destruct (String.eqb_spec key x) as [-> | _]; simpl.
      * rewrite Hfx. reflexivity.
      * reflexivity.
    + destruct (String.eqb_spec key x) as [-> | _]; simpl.
      * rewrite Hfx. reflexivity.
      * reflexivity.
Qed.

Lemma obj_get_copy (schema : Obj Value) (key : string) (keys : list string)
  (acc : Obj Value) :
  obj_get key
    (fold_left (fun parameters k => obj_set k (obj_lookup k schema) parameters)
               keys acc)
  = if includes key keys then Some (obj_lookup key schema) else obj_get key acc.
Proof.
  revert acc. induction keys as [| k keys IH]; intros acc; simpl.
  - reflexivity.
  - rewrite IH. unfold includes. simpl. fold (includes key keys).
    destruct (includes key keys); [rewrite orb_true_r; reflexivity |].
    rewrite orb_false_r, obj_get_set.
    destruct (String.eqb_spec key k) as [-> | _]; reflexivity.
Qed.

Lemma strip_schema_get (schema : Obj Value) (key : string) :
  obj_get key (strip_schema schema)
  = if includes key ["additionalProperties"; "$schema"] then None
    else obj_get key schema.
Proof.
  unfold strip_schema. rewrite obj_get_copy, includes_filter. cbv beta.
  destruct (includes key ["additionalProperties"; "$schema"]); cbn [negb andb].
  - reflexivity.
  - unfold obj_lookup.
    destruct (obj_get key schema) as [v |] eqn:Hget.
    + destruct (includes key (obj_keys schema)) eqn:Hin; [reflexivity |].
      apply obj_get_None_keys in Hin. congruence.
    + apply obj_get_None_keys in Hget. rewrite Hget. reflexivity.
Qed.

(** ** The registry as a function of the registrations *)

Lemma register_all_app regs1 regs2 cache :
  register_all (regs1 ++ regs2) cache = register_all regs2 (register_all regs1 cache).
Proof. unfold register_all. apply fold_left_app. Qed.

Lemma register_all_owned h listed cache :
  register_all (map (pair h) listed) cache = fold_left (register_tool h) listed cache.
Proof.
  unfold register_all. revert cache.
  induction listed as [| t listed IH]; intros cache; simpl; [reflexivity | apply IH].
Qed.

Lemma register_all_get n regs cache :
  obj_get n (register_all regs cache)
  = match last_named n regs with
    | Some r => Some (entry_for (fst r) (snd r))
    | None => obj_get n cache
    end.
Proof.
  unfold register_all. revert cache.
  induction regs as [| r regs IH]; intros cache; simpl; [reflexivity |].
  rewrite IH. destruct (last_named n regs) as [later |]; [reflexivity |].
  unfold register_tool. rewrite obj_get_set.
  destruct (String.eqb n (tool_name (snd r))); reflexivity.
Qed.

Lemma register_all_NoDup regs cache :
  NoDup (obj_keys cache) -> NoDup (obj_keys (register_all regs cache)).
Proof.
  unfold register_all. revert cache.
  induction regs as [| r regs IH]; intros cache Hnd; simpl; [exact Hnd |].
  apply IH. unfold register_tool. apply NoDup_obj_keys_set. exact Hnd.
Qed.

Lemma last_named_In n regs r :
  last_named n regs = Some r -> In r regs /\ tool_name (snd r) = n.
Proof.
  induction regs as [| r0 regs IH]; simpl; [discriminate |].
  destruct (last_named n regs) as [later |].
  - intros H. injection H as <-. destruct (IH eq_refl) as [Hin Hn]. auto.
  - destruct (String.eqb_spec n (tool_name (snd r0))) as [-> | _]; [| discriminate].
    intros H. injection H as <-. auto.
Qed.

Lemma last_named_None n regs :
  last_named n regs = None -> forall r, In r regs -> tool_name (snd r) <> n.
Proof.
  induction regs as [| r0 regs IH]; simpl; [intros _ r [] |].
  destruct (last_named n regs) as [later |]; [discriminate |].
  destruct (String.eqb_spec n (tool_name (snd r0))) as [-> | Hne]; [discriminate |].
  intros _ r [<- | Hin]; [congruence | apply IH; auto].
Qed.

Lemma last_named_split n before r after :
  tool_name (snd r) = n ->
  (forall r', In r' after -> tool_name (snd r') <> n) ->
  last_named n (before ++ r :: after) = Some r.
Proof.
  intros Hn Hafter. induction before as [| r0 before IH]; simpl.
  - destruct (last_named n after) as [later |] eqn:Hlater.
    + apply last_named_In in Hlater. destruct Hlater as [Hin Hname].
      exfalso. exact (Hafter later Hin Hname).
    + rewrite <- Hn, String.eqb_refl. reflexivity.
  - rewrite IH. reflexivity.
Qed.

Lemma In_registrations cs hs h tool :
  In (h, tool) (registrations cs hs) <->
  In h hs /\ exists listed, tools (cs h) = Some listed /\ In tool listed.
Proof.
  unfold registrations. rewrite in_flat_map. split.
  - intros [h0 [Hh0 Hin]]. destruct (tools (cs h0)) as [listed |] eqn:Htools; [| destruct Hin].
    apply in_map_iff in Hin. destruct Hin as [t [Heq Ht]].
    injection Heq as <- <-. split; [exact Hh0 |]. exists listed. auto.
  - intros [Hh [listed [Htools Ht]]]. exists h. split; [exact Hh |].
    rewrite Htools. apply in_map. exact Ht.
Qed.

(** ** Traces of connection and listing requests *)

Lemma setup_only_app evs1 evs2 :
  setup_only (evs1 ++ evs2) = setup_only evs1 && setup_only evs2.
Proof. apply forallb_app. Qed.

Lemma setup_only_silent evs :
  setup_only evs = true ->
  questions evs = [] /\ provider_calls evs = [] /\ round_trips evs = 0.
Proof.
  induction evs as [| ev evs IH]; simpl; [auto |].
  intros H. apply andb_prop in H. destruct H as [Hev Hevs].
  destruct ev; simpl in Hev; try discriminate; simpl; auto.
Qed.

(** ** What listing the tools of one client does *)

Lemma setup_run_refl finished w : setup_run finished w w.
Proof.
  exists []. rewrite app_nil_r. repeat split; auto.
  intros h. simpl. destruct finished; lia.
Qed.

Lemma setup_run_trans finished w1 w2 w3 :
  setup_run true w1 w2 -> setup_run finished w2 w3 -> setup_run finished w1 w3.
Proof.
  intros [evs1 [Ht1 [Hs1 [Hq1 [Hm1 Hc1]]]]] [evs2 [Ht2 [Hs2 [Hq2 [Hm2 Hc2]]]]].
  exists (evs1 ++ evs2). repeat split.
  - rewrite Ht2, Ht1, app_assoc. reflexivity.
  - rewrite setup_only_app, Hs1, Hs2. reflexivity.
  - intros h. rewrite listTools_queries_app.
    specialize (Hq1 h). specialize (Hq2 h). lia.
  - intros h listed Hl. apply Hm2, Hm1, Hl.
  - rewrite Hc2, Hc1. reflexivity.
Qed.

(** A run that touches one client only. *)
Lemma setup_run_one (finished : bool) (w w' : World) (h : Handle)
  (evs : list Event) :
  trace w' = trace w ++ evs ->
  setup_only evs = true ->
  agent w' = agent w ->
  (forall h0, h0 <> h -> clients w' h0 = clients w h0) ->
  (forall h0, h0 <> h -> listTools_queries h0 evs = 0) ->
  listTools_queries h evs + (if finished then listing_budget w' h else 0)
  <= listing_budget w h ->
  (forall listed,
     tools (clients w h) = Some listed -> tools (clients w' h) = Some listed) ->
  setup_run finished w w'.
Proof.
  intros Ht Hs Ha Hframe Hother Hbudget Hkeep. exists evs. repeat split; auto.
  - intros h0. destruct (Nat.eq_dec h0 h) as [-> | Hne]; [exact Hbudget |].
    rewrite (Hother h0 Hne). unfold listing_budget. rewrite (Hframe h0 Hne).
    destruct finished; lia.
  - intros h0 listed Hl. destruct (Nat.eq_dec h0 h) as [-> | Hne]; [auto |].
    rewrite (Hframe h0 Hne). exact Hl.
  - rewrite Ha. reflexivity.
Qed.

Lemma getTool_effect env h w o w' :
  getTool env h w = (o, w') ->
  setup_run (is_Ok o) w w'
  /\ agent w' = agent w
  /\ (forall listed, o = Ok listed -> tools (clients w' h) = Some listed).
Proof.
  unfold getTool, initiate, bind, await, get_client, put_client, ret.
  destruct (initialised (clients w h)) eqn:Hinit; simpl.
  - destruct (tools (clients w h)) as [cached |] eqn:Htools.
    + intros H. injection H as <- <-. split; [apply setup_run_refl |].
      split; [reflexivity |]. intros listed H. injection H as <-. exact Htools.
    + destruct (mcp_listTools env (trace w) h) as [listed | e]; simpl;
        intros H; injection H as <- <-.
      * split; [| split; [reflexivity |]].
        -- apply (setup_run_one _ _ _ h [EvListTools h]); simpl; auto.
           ++ frame_of h.
           ++ frame_of h.
           ++ unfold listing_budget. simpl. rewrite ?Nat.eqb_refl, Htools. simpl. lia.
           ++ intros l0 Hl0. congruence.
        -- intros l0 H. injection H as <-. simpl. rewrite Nat.eqb_refl. reflexivity.
      * split; [| split; [reflexivity |]].
        -- apply (setup_run_one _ _ _ h [EvListTools h]); simpl; auto.
           ++ frame_of h.
           ++ unfold listing_budget. simpl. rewrite ?Nat.eqb_refl, Htools. simpl. lia.
        -- intros l0 H. discriminate.
  - rewrite Hinit.
    destruct (mcp_connect env (trace w) h) as [u | e]; simpl.
    + rewrite ?Nat.eqb_refl. simpl.
      destruct (tools (clients w h)) as [cached |] eqn:Htools.
      * intros H. injection H as <- <-. split; [| split; [reflexivity |]].
        -- apply (setup_run_one _ _ _ h [EvConnect h]); simpl; auto.
           ++ frame_of h.
           ++ unfold listing_budget. simpl. rewrite ?Nat.eqb_refl, Htools. simpl. lia.
           ++ intros l0 Hl0. rewrite Nat.eqb_refl. simpl. congruence.
        -- intros l0 H. injection H as <-. simpl. rewrite Nat.eqb_refl. reflexivity.
      * destruct (mcp_listTools env _ h) as [listed | e]; simpl;
          intros H; injection H as <- <-.
        -- split; [| split; [reflexivity |]].
           ++ apply (setup_run_one _ _ _ h [EvConnect h; EvListTools h]); simpl; auto.
              ** rewrite <- app_assoc. reflexivity.
              ** frame_of h.
              ** frame_of h.
              ** unfold listing_budget. simpl. rewrite ?Nat.eqb_refl, Htools. simpl. lia.
              ** intros l0 Hl0. congruence.
           ++ intros l0 H. injection H as <-. simpl. rewrite Nat.eqb_refl. reflexivity.
        -- split; [| split; [reflexivity |]].
           ++ apply (setup_run_one _ _ _ h [EvConnect h; EvListTools h]); simpl; auto.
              ** rewrite <- app_assoc. reflexivity.
              ** frame_of h.
              ** frame_of h.
              ** unfold listing_budget. simpl. rewrite ?Nat.eqb_refl, Htools. simpl. lia.
              ** intros l0 Hl0. congruence.
           ++ intros l0 H. discriminate.
    + intros H. injection H as <- <-. split; [| split; [reflexivity |]].
      * apply (setup_run_one _ _ _ h [EvConnect h]); simpl; auto.
        unfold listing_budget. simpl. lia.
      * intros l0 H. discriminate.
Qed.

(** ** What [loadTools] does *)

Lemma setup_run_set_cachedTools finished c w :
  setup_run finished w (set_cachedTools c w).
Proof.
  exists []. simpl. rewrite app_nil_r. repeat split; auto.
  intros h. unfold listing_budget. simpl. destruct finished; lia.
Qed.

Lemma registrations_cons cs h hs listed :
  tools (cs h) = Some listed ->
  registrations cs (h :: hs) = map (pair h) listed ++ registrations cs hs.
Proof. intros Htools. unfold registrations. simpl. rewrite Htools. reflexivity. Qed.

Lemma loadTools_each_effect env hs :
  forall w o w' c0,
    loadTools_each env hs w = (o, w') ->
    _cachedTools (agent w) = Some c0 ->
    setup_run (is_Ok o) w w'
    /\ exists c',
         _cachedTools (agent w') = Some c'
         /\ (is_Ok o = true ->
             c' = register_all (registrations (clients w') hs) c0
             /\ forall h, In h hs -> tools (clients w' h) <> None).
Proof.
  induction hs as [| h hs IH]; intros w o w' c0 Hrun Hcache.
  - injection Hrun as <- <-. split; [apply setup_run_refl |].
    exists c0. split; [exact Hcache |]. intros _. split; [reflexivity | intros h []].
  - simpl in Hrun. unfold bind in Hrun.
    destruct (getTool env h w) as [[listed | e |] w1] eqn:Hget;
      destruct (getTool_effect _ _ _ _ _ Hget) as [Hsetup [Hagent Hlisted]].
    + unfold the_cachedTools in Hrun. rewrite Hagent, Hcache in Hrun.
      unfold put_cachedTools in Hrun.
      set (c1 := fold_left (register_tool h) listed c0) in Hrun.
      destruct (IH (set_cachedTools c1 w1) o w' c1 Hrun eq_refl)
        as [Hrest [c' [Hc' Hdone]]].
      assert (Hall : setup_run (is_Ok o) w w').
      { eapply setup_run_trans; [exact Hsetup |].
        eapply setup_run_trans; [apply (setup_run_set_cachedTools true) | exact Hrest]. }
      split; [exact Hall |]. exists c'. split; [exact Hc' |].
      intros Hok. destruct (Hdone Hok) as [Heq Htools].
      assert (Hh : tools (clients w' h) = Some listed).
      { destruct Hrest as [evs [_ [_ [_ [Hkeep _]]]]]. apply Hkeep. simpl.
        apply Hlisted. reflexivity. }
      split.
      * rewrite (registrations_cons _ _ _ _ Hh), register_all_app, register_all_owned.
        exact Heq.
      * intros h0 [<- | Hin]; [congruence | auto].
    + injection Hrun as <- <-. split; [exact Hsetup |].
      exists c0. split; [congruence | discriminate].
    + injection Hrun as <- <-. split; [exact Hsetup |].
      exists c0. split; [congruence | discriminate].
Qed.

Lemma loadTools_cached env w cache :
  _cachedTools (agent w) = Some cache ->
  loadTools env w = (Ok (declarations cache), w).
Proof.
  intros Hcache. unfold loadTools, bind, get_agent, the_cachedTools, ret.
  rewrite Hcache. simpl. rewrite Hcache. reflexivity.
Qed.

Lemma loadTools_fresh env w o w' :
  _cachedTools (agent w) = None ->
  loadTools env w = (o, w') ->
  setup_run (is_Ok o) w w'
  /\ exists cache,
       _cachedTools (agent w') = Some cache
       /\ (forall tls, o = Ok tls ->
           tls = declarations cache
           /\ cache = register_all
                        (registrations (clients w') (mcpClients (agent w))) []
           /\ forall h, In h (mcpClients (agent w)) -> tools (clients w' h) <> None).
Proof.
  intros Hnull. unfold loadTools, bind, get_agent, put_cachedTools. rewrite Hnull.
  destruct (loadTools_each env (mcpClients (agent w)) (set_cachedTools [] w))
    as [[[] | e |] w1] eqn:Heach;
    destruct (loadTools_each_effect _ _ _ _ _ _ Heach eq_refl)
      as [Hsetup [cache [Hcache Hdone]]].
  - unfold the_cachedTools, ret. rewrite Hcache. intros H. injection H as <- <-.
    split.
    + eapply setup_run_trans; [apply (setup_run_set_cachedTools true) | exact Hsetup].
    + exists cache. split; [exact Hcache |]. intros tls H. injection H as <-.
      destruct (Hdone eq_refl) as [Heq Htools]. auto.
  - intros H. injection H as <- <-. split.
    + eapply setup_run_trans; [apply (setup_run_set_cachedTools true) | exact Hsetup].
    + exists cache. split; [exact Hcache | discriminate].
  - intros H. injection H as <- <-. split.
    + eapply setup_run_trans; [apply (setup_run_set_cachedTools true) | exact Hsetup].
    + exists cache. split; [exact Hcache | discriminate].
Qed.

(** Whatever the state of the cache, [loadTools] only sets providers up
    and leaves a cache behind. *)
Lemma loadTools_effect env w o w' :
  loadTools env w = (o, w') ->
  setup_run (is_Ok o) w w'
  /\ exists cache,
       _cachedTools (agent w') = Some cache
       /\ (forall tls, o = Ok tls -> tls = declarations cache).
Proof.
  intros Hrun. destruct (_cachedTools (agent w)) as [c |] eqn:Hcache.
  - rewrite (loadTools_cached _ _ _ Hcache) in Hrun. injection Hrun as <- <-.
    split; [apply setup_run_refl |]. exists c. split; [exact Hcache |].
    intros tls H. injection H as <-. reflexivity.
  - destruct (loadTools_fresh _ _ _ _ Hcache Hrun) as [Hsetup [cache [Hc Hdone]]].
    split; [exact Hsetup |]. exists cache. split; [exact Hc |].
    intros tls H. apply (Hdone tls H).
Qed.

(** ** The tool cache *)

(** C4, amended. Two calls of [loadTools] in a row on the same agent: the second
    call leaves the world as the first one left it (it sends no request to
    any provider), over both calls every client receives at most one
    [listTools] query, and when the first call returns, the second returns
    the same declarations. *)
Theorem loadTools_twice env w :
  let first := loadTools env w in
  let second := loadTools env (snd first) in
  snd second = snd first
  /\ provider_queries (trace (snd second)) = provider_queries (trace (snd first))
  /\ (exists evs,
        trace (snd second) = trace w ++ evs
        /\ forall h, listTools_queries h evs <= 1)
  /\ (forall tls, fst first = Ok tls -> fst second = Ok tls).
Proof.
  intros first second.
  destruct (loadTools env w) as [o w1] eqn:Hfirst.
  destruct (loadTools_effect _ _ _ _ Hfirst) as [Hsetup [cache [Hcache Hdecl]]].
  assert (Hsecond : second = (Ok (declarations cache), w1)).
  { subst second first. simpl. apply loadTools_cached. exact Hcache. }
  rewrite Hsecond. subst first. simpl.
  split; [reflexivity |]. split; [reflexivity |]. split.
  - destruct Hsetup as [evs [Htrace [_ [Hbudget _]]]]. exists evs.
    split; [exact Htrace |]. intros h. specialize (Hbudget h).
    unfold listing_budget in Hbudget.
    destruct (tools (clients w h)); destruct (is_Ok o); lia.
  - intros tls Hok. rewrite (Hdecl tls Hok). reflexivity.
Qed.

(** C4 as stated fails on the program.  The provider of client 1 rejects
    the listing, in the same way whenever it is asked: the first
    [loadTools] raises that exception, and the second, with nothing
    changed at the providers, returns the declarations of the tools of
    client 0 that the first call had cached.  The two calls do not give
    the same result. *)
Lemma loadTools_second_call_differs :
  let first := loadTools flaky_env (startup [0; 1; 2]) in
  let second := loadTools flaky_env (snd first) in
  fst first = Throw (Error "connection reset")
  /\ fst second
     = Ok (declarations [("add", entry_for 0 add_tool);
                         ("echo", entry_for 0 echo_tool)])
  /\ fst first <> fst second.
Proof.
  cbv zeta. split; [reflexivity |]. split; [reflexivity |].
  intros Hsame. vm_compute in Hsame. discriminate Hsame.
Qed.

(** C3. After [loadTools] has built the cache, every configured client
    holds the tools it listed, every such tool has an entry under its
    name, and every entry was made from such a tool: its [parameters]
    object holds neither [additionalProperties] nor [$schema], and holds
    every other key of the tool's [inputSchema] with the value it has
    there. *)
Theorem loadTools_strips_schema_keys env w tls w' :
  _cachedTools (agent w) = None ->
  loadTools env w = (Ok tls, w') ->
  exists cache,
    _cachedTools (agent w') = Some cache
    /\ (forall h, In h (mcpClients (agent w)) -> tools (clients w' h) <> None)
    /\ (forall h listed tool,
          In h (mcpClients (agent w)) ->
          tools (clients w' h) = Some listed ->
          In tool listed ->
          exists entry, obj_get (tool_name tool) cache = Some entry)
    /\ (forall n entry,
          obj_get n cache = Some entry ->
          exists h listed tool,
            In h (mcpClients (agent w))
            /\ tools (clients w' h) = Some listed
            /\ In tool listed
            /\ tool_name tool = n
            /\ entry = entry_for h tool
            /\ stripped_of (inputSchema tool) (parameters (definition entry))).
Proof.
  intros Hnull Hrun.
  destruct (loadTools_fresh _ _ _ _ Hnull Hrun) as [_ [cache [Hcache Hdone]]].
  destruct (Hdone tls eq_refl) as [_ [Heq Hheld]].
  exists cache. split; [exact Hcache |]. split; [exact Hheld |]. split.
  - intros h listed tool Hh Hlisted Htool. rewrite Heq, register_all_get.
    destruct (last_named (tool_name tool) _) as [r |] eqn:Hlast.
    + eexists. reflexivity.
    + exfalso. apply (last_named_None _ _ Hlast (h, tool)); [| reflexivity].
      apply In_registrations. eauto.
  - intros n entry Hget. rewrite Heq, register_all_get in Hget.
    destruct (last_named n _) as [[h tool] |] eqn:Hlast; [| discriminate].
    injection Hget as <-. apply last_named_In in Hlast. destruct Hlast as [Hin Hn].
    apply In_registrations in Hin. destruct Hin as [Hh [listed [Hlisted Htool]]].
    exists h, listed, tool. repeat (split; [assumption || reflexivity |]).
    simpl. unfold stripped_of.
    rewrite !strip_schema_get. simpl. split; [reflexivity |]. split; [reflexivity |].
    intros key Hk1 Hk2. rewrite strip_schema_get. simpl.
    apply String.eqb_neq in Hk1, Hk2. rewrite Hk1, Hk2. reflexivity.
Qed.

Lemma loadTools_strips_schema_keys_witness :
  exists cache,
    _cachedTools (agent (snd (loadTools demo_env (startup [0; 1])))) = Some cache
    /\ exists entry,
         obj_get "echo" cache = Some entry
         /\ parameters (definition entry) = [("type", VStr "object")].
Proof.
  destruct (loadTools demo_env (startup [0; 1])) as [o w'] eqn:Hrun.
  assert (Ho : o = Ok (declarations
                         [("add", entry_for 1 other_add_tool);
                          ("echo", entry_for 0 echo_tool)])).
  { apply (f_equal fst) in Hrun. vm_compute in Hrun. symmetry. exact Hrun. }
  subst o.
  destruct (loadTools_strips_schema_keys demo_env (startup [0; 1]) _ w' eq_refl Hrun)
    as [cache [Hcache _]].
  exists cache. split; [exact Hcache |].
  apply (f_equal snd) in Hrun. simpl in Hrun. subst w'.
  vm_compute in Hcache. injection Hcache as <-.
  eexists. split; reflexivity.
Defined.

(** ** Providers that answer *)

Lemma getTool_answers env h w :
  providers_answer env -> exists listed w', getTool env h w = (Ok listed, w').
Proof.
  intros [Hconnect Hlist].
  unfold getTool, initiate, bind, await, get_client, put_client, ret.
  destruct (initialised (clients w h)) eqn:Hinit; simpl.
  - destruct (tools (clients w h)) as [cached |]; [eauto |].
    destruct (Hlist (trace w) h) as [listed ->]. eauto.
  - rewrite Hinit. destruct (Hconnect (trace w) h) as [u ->]. simpl.
    rewrite ?Nat.eqb_refl. simpl.
    destruct (tools (clients w h)) as [cached |]; [eauto |].
    match goal with
    | |- context [mcp_listTools env ?tr h] => destruct (Hlist tr h) as [listed ->]
    end.
    eauto.
Qed.

Lemma loadTools_each_answers env hs :
  providers_answer env ->
  forall w, _cachedTools (agent w) <> None ->
            exists w', loadTools_each env hs w = (Ok tt, w').
Proof.
  intros Hanswer. induction hs as [| h hs IH]; intros w Hcache.
  - exists w. reflexivity.
  - simpl. unfold bind.
    destruct (getTool_answers env h w Hanswer) as [listed [w1 Hget]].
    rewrite Hget. destruct (getTool_effect _ _ _ _ _ Hget) as [_ [Hagent _]].
    unfold the_cachedTools. rewrite Hagent.
    destruct (_cachedTools (agent w)) as [c0 |]; [| contradiction].
    unfold put_cachedTools. apply IH. simpl. discriminate.
Qed.

Lemma loadTools_answers env w :
  providers_answer env -> exists tls w', loadTools env w = (Ok tls, w').
Proof.
  intros Hanswer. destruct (_cachedTools (agent w)) as [c |] eqn:Hcache.
  - rewrite (loadTools_cached _ _ _ Hcache). eauto.
  - unfold loadTools, bind, get_agent, put_cachedTools. rewrite Hcache.
    destruct (loadTools_each_answers env (mcpClients (agent w)) Hanswer
                (set_cachedTools [] w)) as [w1 Heach]; [simpl; discriminate |].
    rewrite Heach.
    destruct (loadTools_each_effect _ _ _ _ _ _ Heach eq_refl)
      as [_ [cache [Hc _]]].
    unfold the_cachedTools, ret. rewrite Hc. eauto.
Qed.

(** C8. When the providers answer, [loadTools] builds the cache without
    raising anything, with one entry per tool name; and when a tool of the
    same name is registered twice, by [h1] and later by [h2], with no
    registration of that name after the one of [h2], the entry of the
    name is the definition of the tool of [h2], owned by [h2]. *)
Theorem loadTools_last_registration_wins env w :
  providers_answer env ->
  _cachedTools (agent w) = None ->
  exists tls w' cache,
    loadTools env w = (Ok tls, w')
    /\ _cachedTools (agent w') = Some cache
    /\ NoDup (obj_keys cache)
    /\ forall before h1 t1 between h2 t2 after,
         registrations (clients w') (mcpClients (agent w))
         = before ++ (h1, t1) :: between ++ (h2, t2) :: after ->
         tool_name t1 = tool_name t2 ->
         (forall h t, In (h, t) after -> tool_name t <> tool_name t2) ->
         obj_get (tool_name t2) cache = Some (entry_for h2 t2).
Proof.
  intros Hanswer Hnull.
  destruct (loadTools_answers env w Hanswer) as [tls [w' Hrun]].
  destruct (loadTools_fresh _ _ _ _ Hnull Hrun) as [_ [cache [Hcache Hdone]]].
  destruct (Hdone tls eq_refl) as [_ [Heq _]].
  exists tls, w', cache. split; [exact Hrun |]. split; [exact Hcache |]. split.
  - rewrite Heq. apply register_all_NoDup. constructor.
  - intros before h1 t1 between h2 t2 after Hregs Hname Hlast.
    rewrite Heq, register_all_get, Hregs.
    replace (before ++ (h1, t1) :: between ++ (h2, t2) :: after)
      with ((before ++ (h1, t1) :: between) ++ (h2, t2) :: after)
      by (rewrite <- app_assoc; reflexivity).
    rewrite (last_named_split (tool_name t2) _ (h2, t2) after); [reflexivity | reflexivity |].
    intros [h t] Hin. exact (Hlast h t Hin).
Qed.

Lemma loadTools_last_registration_wins_witness :
  exists cache,
    _cachedTools (agent (snd (loadTools demo_env (startup [0; 1])))) = Some cache
    /\ obj_get "add" cache = Some (entry_for 1 other_add_tool).
Proof.
  destruct (loadTools_last_registration_wins demo_env (startup [0; 1])
              (conj (fun tr h => ex_intro _ tt eq_refl)
                    (fun tr h => ex_intro _ (demo_catalog h) eq_refl))
              eq_refl)
    as [tls [w' [cache [Hrun [Hcache [_ Hwins]]]]]].
  rewrite Hrun. simpl. exists cache. split; [exact Hcache |].
  apply (Hwins [] 0 add_tool [(0, echo_tool)] 1 other_add_tool []).
  - apply (f_equal snd) in Hrun. simpl in Hrun. subst w'. reflexivity.
  - reflexivity.
  - intros h t [].
Defined.

(** ** The dispatch of the calls of a reply *)

Lemma forallb_no_functionCall ps :
  forallb no_functionCall ps = true <-> calls_of ps = [].
Proof.
  induction ps as [| part ps IH]; simpl; [split; reflexivity |].
  unfold no_functionCall at 1. destruct (functionCall part); simpl.
  - split; discriminate.
  - exact IH.
Qed.

Lemma forallb_no_functionCall_Forall ps :
  forallb no_functionCall ps = true ->
  Forall (fun part => functionCall part = None) ps.
Proof.
  rewrite forallb_forall. intros H. apply Forall_forall. intros part Hin.
  specialize (H part Hin). unfold no_functionCall in H.
  destruct (functionCall part); [discriminate | reflexivity].
Qed.

Lemma dispatch_no_calls env ps acc w :
  calls_of ps = [] -> dispatch env ps acc w = (Ok acc, w).
Proof.
  induction ps as [| part ps IH]; simpl; [reflexivity |].
  destruct (functionCall part); [discriminate | exact IH].
Qed.

(** A run of [dispatch] that returns has served the calls as [Dispatched]
    says, and has touched neither the agent nor the clients. *)
Lemma dispatch_Ok env cache ps :
  forall acc w frs w',
    _cachedTools (agent w) = Some cache ->
    dispatch env ps acc w = (Ok frs, w') ->
    exists new evs,
      frs = acc ++ new
      /\ trace w' = trace w ++ evs
      /\ agent w' = agent w
      /\ clients w' = clients w
      /\ Dispatched env cache (trace w) (calls_of ps) new evs.
Proof.
  induction ps as [| part ps IH]; intros acc w frs w' Hcache Hrun; simpl in *.
  - injection Hrun as <- <-. exists [], []. rewrite !app_nil_r.
    repeat split; constructor.
  - destruct (functionCall part) as [call |]; [| exact (IH _ _ _ _ Hcache Hrun)].
    unfold bind at 1 in Hrun. unfold the_cachedTools in Hrun. rewrite Hcache in Hrun.
    destruct (obj_get (fc_name call) cache) as [entry |] eqn:Hentry; [| discriminate].
    unfold bind at 1 in Hrun.
    destruct (rl_question env (trace w) (confirm_prompt env (fc_name call) (fc_args call)))
      as [answer | e] eqn:Hline.
    + rewrite (callTool_run env _ _ _ _ _ Hline) in Hrun.
      destruct (String.eqb answer "yes") eqn:Hyes;
        [apply String.eqb_eq in Hyes; subst answer
        | apply String.eqb_neq in Hyes].
      * destruct (mcp_callTool env _ (client entry) (fc_name call) (fc_args call))
          as [raw | e] eqn:Hraw; [| discriminate].
        apply IH in Hrun; [| exact Hcache].
        destruct Hrun as [new [evs [Hfrs [Htrace [Hagent [Hclients Hrest]]]]]].
        simpl in Htrace, Hagent, Hclients, Hrest, Hraw.
        rewrite <- !app_assoc in Htrace. rewrite <- ?app_assoc in Hrest.
        simpl in Htrace, Hrest.
        eexists. eexists. split; [| split; [| split; [| split]]].
        -- rewrite Hfrs, <- app_assoc. reflexivity.
        -- rewrite Htrace. reflexivity.
        -- exact Hagent.
        -- exact Hclients.
        -- unfold response_part. simpl.
           eapply Dispatched_confirmed; eauto.
      * apply IH in Hrun; [| exact Hcache].
        destruct Hrun as [new [evs [Hfrs [Htrace [Hagent [Hclients Hrest]]]]]].
        simpl in Htrace, Hagent, Hclients, Hrest.
        rewrite <- !app_assoc in Htrace. rewrite <- ?app_assoc in Hrest.
        simpl in Htrace, Hrest.
        eexists. eexists. split; [| split; [| split; [| split]]].
        -- rewrite Hfrs, <- app_assoc. reflexivity.
        -- rewrite Htrace. reflexivity.
        -- exact Hagent.
        -- exact Hclients.
        -- unfold response_part. simpl.
           eapply Dispatched_cancelled; eauto.
    + unfold callTool, bind, await in Hrun. rewrite Hline in Hrun. discriminate.
Qed.

Lemma Dispatched_questions env cache tr calls frs evs :
  Dispatched env cache tr calls frs evs ->
  questions evs = map (prompt_of env) calls
  /\ length frs = length calls
  /\ round_trips evs = 0.
Proof.
  induction 1 as [tr | tr call calls entry raw frs evs _ _ _ _ [IHq [IHl IHr]]
                  | tr call calls entry answer frs evs _ _ _ _ [IHq [IHl IHr]]];
    simpl; [auto | |]; rewrite IHq, IHl; auto.
Qed.

(** ** One pass through the loop *)

Lemma loop_body_inv env cc w step w' :
  loop_body env cc w = (Ok step, w') ->
  exists tls w1 reply first others,
    loadTools env w = (Ok tls, w1)
    /\ generateContent env (trace w1) model_id cc tls = Fulfilled reply
    /\ candidates reply = first :: others
    /\ (if forallb no_functionCall (parts (content first)) then
          step = Break (reply, cc ++ [content first])
          /\ w' = record_event (EvGenerate model_id cc tls) w1
        else
          exists frs,
            dispatch env (parts (content first)) []
              (record_event (EvGenerate model_id cc tls) w1) = (Ok frs, w')
            /\ step = Continue ((cc ++ [content first])
                                  ++ [{| parts := frs; role := "user" |}])).
Proof.
  unfold loop_body. intros Hrun.
  apply bind_inv_Ok in Hrun. destruct Hrun as [tls [w1 [Hload Hrun]]].
  apply bind_inv_Ok in Hrun. destruct Hrun as [reply [w2 [Hgen Hrun]]].
  unfold await in Hgen.
  destruct (generateContent env (trace w1) model_id cc tls) as [r | e] eqn:Hreply;
    [| discriminate].
  injection Hgen as -> <-.
  destruct (candidates reply) as [| first others] eqn:Hcand; [discriminate |].
  exists tls, w1, reply, first, others.
  split; [exact Hload |]. split; [exact Hreply |]. split; [exact Hcand |].
  destruct (forallb no_functionCall (parts (content first))).
  - injection Hrun as <- <-. auto.
  - apply bind_inv_Ok in Hrun. destruct Hrun as [frs [w3 [Hdisp Hrun]]].
    injection Hrun as <- <-. exists frs. auto.
Qed.

Lemma Dispatched_payloads env cache tr calls frs evs :
  Dispatched env cache tr calls frs evs ->
  Forall2
    (fun call part =>
       text part = None
       /\ functionCall part = None
       /\ exists r,
            functionResponse part
            = Some {| fr_name := fc_name call; fr_response := r |}
            /\ (r = VObj [("content",
                           VObj [("type", VStr "text");
                                 ("text",
                                  VStr "Tool/Function call failed or was cancelled.")])]
                \/ exists sent entry,
                     obj_get (fc_name call) cache = Some entry
                     /\ mcp_callTool env sent (client entry)
                          (fc_name call) (fc_args call)
                        = Fulfilled r))
    calls frs.
Proof.
  induction 1 as [tr
                 | tr call calls entry raw frs evs Hentry Hyes Hraw _ IH
                 | tr call calls entry answer frs evs Hentry Hline Hno _ IH];
    constructor; try exact IH; simpl.
  - split; [reflexivity |]. split; [reflexivity |]. exists raw.
    split; [reflexivity |]. right. eauto.
  - split; [reflexivity |]. split; [reflexivity |]. eexists.
    split; [reflexivity |]. left. reflexivity.
Qed.

(** X18. A pass through the loop in which every call of the reply got an
    outcome, so that the pass goes on to another round, has served the
    function calls of the reply in the order of its parts: the operator
    was asked about them in that order, and each call has one response
    part named after it, which carries the raw response of the owner's
    provider when the call was confirmed and the fixed object
    [{content: {type: "text", text: "Tool/Function call failed or was cancelled."}}]
    when it was not.  The pass has appended to the history, after the
    model turn, one turn of role user holding exactly these parts. *)
Theorem loop_body_serves_calls_in_order env cc w cc' w' :
  loop_body env cc w = (Ok (Continue cc'), w') ->
  exists tls sent reply first others cache frs evs,
    generateContent env sent model_id cc tls = Fulfilled reply
    /\ candidates reply = first :: others
    /\ _cachedTools (agent w') = Some cache
    /\ trace w' = sent ++ EvGenerate model_id cc tls :: evs
    /\ Dispatched env cache (sent ++ [EvGenerate model_id cc tls])
         (calls_of (parts (content first))) frs evs
    /\ questions evs = map (prompt_of env) (calls_of (parts (content first)))
    /\ Forall2
         (fun call part =>
            text part = None
            /\ functionCall part = None
            /\ exists r,
                 functionResponse part
                 = Some {| fr_name := fc_name call; fr_response := r |}
                 /\ (r = VObj [("content",
                                VObj [("type", VStr "text");
                                      ("text",
                                       VStr "Tool/Function call failed or was cancelled.")])]
                     \/ exists sent' entry,
                          obj_get (fc_name call) cache = Some entry
                          /\ mcp_callTool env sent' (client entry)
                               (fc_name call) (fc_args call)
                             = Fulfilled r))
         (calls_of (parts (content first))) frs
    /\ cc' = cc ++ [content first; {| parts := frs; role := "user" |}].
Proof.
  intros Hrun. apply loop_body_inv in Hrun.
  destruct Hrun as [tls [w1 [reply [first [others [Hload [Hreply [Hcand Hstep]]]]]]]].
  destruct (forallb no_functionCall (parts (content first)));
    [destruct Hstep as [Hstep _]; discriminate |].
  destruct Hstep as [frs [Hdisp Hstep]]. injection Hstep as ->.
  destruct (loadTools_effect _ _ _ _ Hload) as [_ [cache [Hcache _]]].
  apply (dispatch_Ok env cache) in Hdisp; [| exact Hcache].
  destruct Hdisp as [new [evs [Hfrs [Htrace [Hagent [_ Hserved]]]]]].
  simpl in Hfrs, Htrace, Hagent, Hserved. subst frs.
  destruct (Dispatched_questions _ _ _ _ _ _ Hserved) as [Hq _].
  exists tls, (trace w1), reply, first, others, cache, new, evs.
  split; [exact Hreply |]. split; [exact Hcand |].
  split; [rewrite Hagent; exact Hcache |].
  split; [rewrite Htrace, <- app_assoc; reflexivity |].
  split; [exact Hserved |]. split; [exact Hq |].
  split; [exact (Dispatched_payloads _ _ _ _ _ _ Hserved) |].
  rewrite <- app_assoc. reflexivity.
Qed.

Lemma loop_body_serves_calls_in_order_witness :
  exists w',
    loop_body demo_env_two_calls [{| parts := [text_part "go"]; role := "user" |}]
      (startup [0; 1])
    = (Ok (Continue
             [{| parts := [text_part "go"]; role := "user" |};
              {| parts := [call_part "add" two_plus_two; text_part "and";
                           call_part "echo" (VObj [("s", VStr "hi")])];
                 role := "model" |};
              {| parts :=
                   [{| text := None;
                       functionCall := None;
                       functionResponse :=
                         Some {| fr_name := "add";
                                 fr_response := text_result "4" |} |};
                    {| text := None;
                       functionCall := None;
                       functionResponse :=
                         Some {| fr_name := "echo";
                                 fr_response :=
                                   VObj [("content",
                                          VObj [("type", VStr "text");
                                                ("text",
                                                 VStr "Tool/Function call failed or was cancelled.")])] |} |}];
                 role := "user" |}]),
       w')
    /\ exists tls sent evs,
         trace w' = sent ++ EvGenerate model_id
                              [{| parts := [text_part "go"]; role := "user" |}] tls
                         :: evs
         /\ questions evs
            = [prompt_of demo_env_two_calls
                 {| fc_name := "add"; fc_args := two_plus_two |};
               prompt_of demo_env_two_calls
                 {| fc_name := "echo"; fc_args := VObj [("s", VStr "hi")] |}].
Proof.
  destruct (loop_body demo_env_two_calls
              [{| parts := [text_part "go"]; role := "user" |}] (startup [0; 1]))
    as [o w'] eqn:Hrun.
  exists w'.
  assert (Ho : (o, w')
               = (Ok (Continue
                        [{| parts := [text_part "go"]; role := "user" |};
                         {| parts := [call_part "add" two_plus_two; text_part "and";
                                      call_part "echo" (VObj [("s", VStr "hi")])];
                            role := "model" |};
                         {| parts :=
                              [response_part
                                 {| fc_name := "add"; fc_args := two_plus_two |}
                                 {| success := true; response := text_result "4" |};
                               response_part
                                 {| fc_name := "echo";
                                    fc_args := VObj [("s", VStr "hi")] |}
                                 {| success := false; response := VNull |}];
                            role := "user" |}]),
                  w')).
  { apply (f_equal fst) in Hrun. vm_compute in Hrun. rewrite <- Hrun. reflexivity. }
  split; [exact Ho |]. injection Ho as ->.
  destruct (loop_body_serves_calls_in_order _ _ _ _ _ Hrun)
    as [tls [sent [reply [first [others [cache [frs [evs H]]]]]]]].
  destruct H as [_ [_ [_ [Htrace [_ [Hq [_ Hcc]]]]]]].
  exists tls, sent, evs. split; [exact Htrace |].
  rewrite Hq.
  assert (Hfirst : content first
                   = {| parts := [call_part "add" two_plus_two; text_part "and";
                                  call_part "echo" (VObj [("s", VStr "hi")])];
                        role := "model" |}).
  { injection Hcc as Hc _. symmetry. exact Hc. }
  rewrite Hfirst. reflexivity.
Defined.

(** C7 fails on the program for a call that fails.  The model asks for
    [echo] and then [add]; the operator confirms and the provider rejects
    the call of [echo].  Nothing catches the rejection at line 54: no
    response part with the fixed payload is built and no user turn is
    appended, [processQuery] raises the provider's exception, whatever the
    fuel, after one [generateContent] round trip, and [add] is never asked
    about. *)
Theorem processQuery_failed_call_raises fuel :
  let ready := snd (loadTools flaky_env (startup [0])) in
  let run := processQuery flaky_env (S fuel) "echo then add" "user" [] ready in
  fst run = Throw (Error "tool crashed")
  /\ round_trips (trace (snd run)) = 1
  /\ questions (trace (snd run))
     = [prompt_of flaky_env {| fc_name := "echo"; fc_args := VObj [] |}]
  /\ provider_calls (trace (snd run)) = [(0, "echo", VObj [])]
  /\ exists cache,
       _cachedTools (agent (snd run)) = Some cache
       /\ obj_get "echo" cache = Some (entry_for 0 echo_tool)
       /\ obj_get "add" cache = Some (entry_for 0 add_tool).
Proof.
  cbv zeta. repeat split.
  exists [("add", entry_for 0 add_tool); ("echo", entry_for 0 echo_tool)].
  repeat split.
Qed.

(** ** The turn loop *)

Lemma Forall_no_functionCall ps :
  Forall (fun part => functionCall part = None) ps ->
  forallb no_functionCall ps = true.
Proof.
  intros H. apply forallb_forall. intros part Hin.
  rewrite Forall_forall in H. unfold no_functionCall. rewrite (H part Hin).
  reflexivity.
Qed.

(** A pass through the loop whose reply has no function call. *)
Lemma loop_body_Break env cc w tls w1 reply first others :
  loadTools env w = (Ok tls, w1) ->
  generateContent env (trace w1) model_id cc tls = Fulfilled reply ->
  candidates reply = first :: others ->
  forallb no_functionCall (parts (content first)) = true ->
  loop_body env cc w
  = (Ok (Break (reply, cc ++ [content first])),
     record_event (EvGenerate model_id cc tls) w1).
Proof.
  intros Hload Hreply Hcand Hnone. unfold loop_body.
  rewrite (bind_Ok _ _ _ _ _ Hload). unfold bind, await. rewrite Hreply, Hcand.
  rewrite Hnone. reflexivity.
Qed.

(** A pass through the loop whose reply has function calls that
    [dispatch] serves. *)
Lemma loop_body_Continue env cc w tls w1 reply first others frs w2 :
  loadTools env w = (Ok tls, w1) ->
  generateContent env (trace w1) model_id cc tls = Fulfilled reply ->
  candidates reply = first :: others ->
  forallb no_functionCall (parts (content first)) = false ->
  dispatch env (parts (content first)) []
    (record_event (EvGenerate model_id cc tls) w1) = (Ok frs, w2) ->
  loop_body env cc w
  = (Ok (Continue (cc ++ [content first; {| parts := frs; role := "user" |}])), w2).
Proof.
  intros Hload Hreply Hcand Hsome Hdisp. unfold loop_body.
  rewrite (bind_Ok _ _ _ _ _ Hload). unfold bind at 1. unfold await.
  rewrite Hreply, Hcand, Hsome. rewrite (bind_Ok _ _ _ _ _ Hdisp).
  unfold ret. rewrite <- app_assoc. reflexivity.
Qed.

Lemma callTool_effect env h toolName args w o w' :
  callTool env h toolName args w = (o, w') ->
  agent w' = agent w
  /\ clients w' = clients w
  /\ exists evs,
       trace w' = trace w ++ evs
       /\ round_trips evs = 0
       /\ length (questions evs) = 1
       /\ forall outcome,
            o = Ok outcome ->
            length (provider_calls evs) = if success outcome then 1 else 0.
Proof.
  unfold callTool, bind, await, console_log, ret.
  destruct (rl_question env (trace w) (confirm_prompt env toolName args))
    as [answer | e].
  - destruct (String.eqb answer "yes"); simpl.
    + destruct (mcp_callTool env _ h toolName args) as [raw | e];
        intros H; injection H as <- <-; simpl;
        (split; [reflexivity |]); (split; [reflexivity |]);
        exists [EvQuestion (confirm_prompt env toolName args);
                EvCallTool h toolName args];
        rewrite <- app_assoc; simpl; repeat split; auto.
      * intros outcome H. injection H as <-. reflexivity.
      * intros outcome H. discriminate.
    + intros H. injection H as <- <-. simpl.
      split; [reflexivity |]. split; [reflexivity |].
      exists [EvQuestion (confirm_prompt env toolName args);
              EvLog "Tool call cancelled."].
      rewrite <- app_assoc. simpl. repeat split; auto.
      intros outcome H. injection H as <-. reflexivity.
  - intros H. injection H as <- <-. simpl.
    split; [reflexivity |]. split; [reflexivity |].
    exists [EvQuestion (confirm_prompt env toolName args)].
    repeat split; auto. intros outcome H. discriminate.
Qed.

(** [dispatch] of a reply with a single function call. *)
Lemma dispatch_single env cache entry call outcome ps :
  forall acc w w',
    calls_of ps = [call] ->
    _cachedTools (agent w) = Some cache ->
    obj_get (fc_name call) cache = Some entry ->
    callTool env (client entry) (fc_name call) (fc_args call) w = (Ok outcome, w') ->
    dispatch env ps acc w = (Ok (acc ++ [response_part call outcome]), w').
Proof.
  induction ps as [| part ps IH]; intros acc w w' Hcalls Hcache Hentry Hcall;
    simpl in *; [discriminate |].
  destruct (functionCall part) as [call0 |]; [| apply IH; assumption].
  injection Hcalls as -> Hrest.
  unfold bind at 1. unfold the_cachedTools. rewrite Hcache, Hentry.
  rewrite (bind_Ok _ _ _ _ _ Hcall). apply dispatch_no_calls. exact Hrest.
Qed.

(** C6. When the tools load and the first reply of the LLM has no
    function-call part, [processQuery] returns that reply, with the user
    turn and the reply appended to the history, for any fuel that allows
    one pass; the trace gains one [generateContent] round trip, no
    confirmation question and no provider call. *)
Theorem processQuery_text_reply env fuel query role savedContent w
  tls w1 reply first others :
  loadTools env w = (Ok tls, w1) ->
  generateContent env (trace w1) model_id
    (savedContent ++ [{| parts := [text_part query]; role := role |}]) tls
  = Fulfilled reply ->
  candidates reply = first :: others ->
  Forall (fun part => functionCall part = None) (parts (content first)) ->
  exists w' evs,
    processQuery env (S fuel) query role savedContent w
    = (Ok (reply,
           savedContent
             ++ [{| parts := [text_part query]; role := role |}; content first]),
       w')
    /\ trace w' = trace w ++ evs
    /\ round_trips evs = 1
    /\ questions evs = []
    /\ provider_calls evs = [].
Proof.
  intros Hload Hreply Hcand Hnone.
  destruct (loadTools_effect _ _ _ _ Hload) as [[evs [Htrace [Hsetup _]]] _].
  destruct (setup_only_silent _ Hsetup) as [Hq [Hp Hr]].
  eexists. exists (evs ++ [EvGenerate model_id
                             (savedContent
                                ++ [{| parts := [text_part query]; role := role |}])
                             tls]).
  split; [| split; [| split; [| split]]].
  - unfold processQuery. simpl.
    rewrite (bind_Ok _ _ _ _ _
               (loop_body_Break _ _ _ _ _ _ _ _ Hload Hreply Hcand
                  (Forall_no_functionCall _ Hnone))).
    unfold ret. rewrite <- app_assoc. reflexivity.
  - simpl. rewrite Htrace, app_assoc. reflexivity.
  - rewrite round_trips_app, Hr. reflexivity.
  - rewrite questions_app, Hq. reflexivity.
  - rewrite provider_calls_app, Hp. reflexivity.
Qed.

Lemma processQuery_text_reply_witness :
  exists w',
    processQuery (scripted [] [model_reply [text_part "hello"]] demo_catalog demo_answer)
      1 "hi" "user" [] (startup [0; 1])
    = (Ok (model_reply [text_part "hello"],
           [{| parts := [text_part "hi"]; role := "user" |};
            {| parts := [text_part "hello"]; role := "model" |}]),
       w').
Proof.
  edestruct (processQuery_text_reply
               (scripted [] [model_reply [text_part "hello"]] demo_catalog demo_answer)
               0 "hi" "user" [] (startup [0; 1]))
    as [w' [evs [Hrun _]]].
  - reflexivity.
  - reflexivity.
  - reflexivity.
  - repeat constructor.
  - exists w'. exact Hrun.
Defined.

(** C5. When the tools load, the first reply of the LLM holds one
    function call, of a registered tool, [callTool] returns an outcome
    for it, and the next reply has no function-call part, [processQuery]
    returns the second reply for any fuel that allows two passes.  The
    history it returns is the saved one followed by the user turn, the
    model turn with the call, one turn of role user whose single part is
    the function response named after the call, and the final model turn.
    The trace gains two [generateContent] round trips and one
    confirmation question (one invocation of [callTool]), with one
    provider call when the operator confirmed and none otherwise. *)
Theorem processQuery_one_call_then_text env fuel query role savedContent w
  tls w1 reply1 first1 others1 call cache entry outcome w3
  reply2 first2 others2 :
  let asked := {| parts := [text_part query]; role := role |} in
  let answered :=
    {| parts :=
         [{| text := None;
             functionCall := None;
             functionResponse :=
               Some {| fr_name := fc_name call;
                       fr_response :=
                         if success outcome then response outcome
                         else failed_payload |} |}];
       role := "user" |} in
  loadTools env w = (Ok tls, w1) ->
  generateContent env (trace w1) model_id (savedContent ++ [asked]) tls
  = Fulfilled reply1 ->
  candidates reply1 = first1 :: others1 ->
  calls_of (parts (content first1)) = [call] ->
  _cachedTools (agent w1) = Some cache ->
  obj_get (fc_name call) cache = Some entry ->
  callTool env (client entry) (fc_name call) (fc_args call)
    (record_event (EvGenerate model_id (savedContent ++ [asked]) tls) w1)
  = (Ok outcome, w3) ->
  generateContent env (trace w3) model_id
    (savedContent ++ [asked; content first1; answered]) tls
  = Fulfilled reply2 ->
  candidates reply2 = first2 :: others2 ->
  Forall (fun part => functionCall part = None) (parts (content first2)) ->
  exists w' evs,
    processQuery env (S (S fuel)) query role savedContent w
    = (Ok (reply2,
           savedContent ++ [asked; content first1; answered; content first2]),
       w')
    /\ trace w' = trace w ++ evs
    /\ round_trips evs = 2
    /\ length (questions evs) = 1
    /\ length (provider_calls evs) = if success outcome then 1 else 0.
Proof.
  intros asked answered Hload Hreply1 Hcand1 Hcalls Hcache Hentry Hcall
    Hreply2 Hcand2 Hnone.
  destruct (loadTools_effect _ _ _ _ Hload)
    as [[evs1 [Htrace1 [Hsetup _]]] [cache' [Hcache' Hdecl]]].
  rewrite Hcache in Hcache'. injection Hcache' as <-.
  specialize (Hdecl tls eq_refl).
  destruct (setup_only_silent _ Hsetup) as [Hq1 [Hp1 Hr1]].
  destruct (callTool_effect _ _ _ _ _ _ _ Hcall)
    as [Hagent [_ [evs2 [Htrace2 [Hr2 [Hq2 Hp2]]]]]].
  specialize (Hp2 outcome eq_refl). simpl in Hagent, Htrace2.
  assert (Hsome : forallb no_functionCall (parts (content first1)) = false).
  { destruct (forallb no_functionCall (parts (content first1))) eqn:Hb;
      [| reflexivity].
    apply forallb_no_functionCall in Hb. congruence. }
  assert (Hdisp : dispatch env (parts (content first1)) []
                    (record_event (EvGenerate model_id (savedContent ++ [asked]) tls) w1)
                  = (Ok [response_part call outcome], w3)).
  { apply (dispatch_single env cache entry call outcome); auto. }
  assert (Hload2 : loadTools env w3 = (Ok tls, w3)).
  { rewrite Hdecl. apply loadTools_cached. rewrite Hagent. exact Hcache. }
  assert (Hcc : (savedContent ++ [asked])
                  ++ [content first1;
                      {| parts := [response_part call outcome]; role := "user" |}]
                = savedContent ++ [asked; content first1; answered]).
  { rewrite <- app_assoc. reflexivity. }
  eexists.
  exists (evs1 ++ EvGenerate model_id (savedContent ++ [asked]) tls
               :: evs2
               ++ [EvGenerate model_id
                     (savedContent ++ [asked; content first1; answered]) tls]).
  split; [| split; [| split; [| split]]].
  - unfold processQuery. fold asked. cbn [processQuery_loop].
    rewrite (bind_Ok _ _ _ _ _
               (loop_body_Continue _ _ _ _ _ _ _ _ _ _
                  Hload Hreply1 Hcand1 Hsome Hdisp)).
    rewrite Hcc.
    rewrite (bind_Ok _ _ _ _ _
               (loop_body_Break _ _ _ _ _ _ _ _ Hload2 Hreply2 Hcand2
                  (Forall_no_functionCall _ Hnone))).
    unfold ret. rewrite <- app_assoc. reflexivity.
  - simpl. rewrite Htrace2, Htrace1. rewrite <- !app_assoc. reflexivity.
  - rewrite round_trips_app. simpl. rewrite round_trips_app, Hr1, Hr2. reflexivity.
  - rewrite questions_app. simpl. rewrite questions_app, Hq1. simpl.
    rewrite app_nil_r. exact Hq2.
  - rewrite provider_calls_app. simpl. rewrite provider_calls_app, Hp1. simpl.
    rewrite app_nil_r. exact Hp2.
Qed.

Lemma processQuery_one_call_then_text_witness :
  exists w',
    processQuery demo_env 2 "what is 2+2" "user" [] (startup [0; 1])
    = (Ok (model_reply [text_part "4"],
           [{| parts := [text_part "what is 2+2"]; role := "user" |};
            {| parts := [call_part "add" two_plus_two]; role := "model" |};
            {| parts :=
                 [{| text := None;
                     functionCall := None;
                     functionResponse :=
                       Some {| fr_name := "add"; fr_response := text_result "4" |} |}];
               role := "user" |};
            {| parts := [text_part "4"]; role := "model" |}]),
       w').
Proof.
  edestruct (processQuery_one_call_then_text demo_env 0 "what is 2+2" "user" []
               (startup [0; 1]))
    as [w' [evs [Hrun _]]].
  - reflexivity.
  - reflexivity.
  - reflexivity.
  - reflexivity.
  - reflexivity.
  - reflexivity.
  - reflexivity.
  - reflexivity.
  - reflexivity.
  - repeat constructor.
  - exists w'. exact Hrun.
Defined.

(** C10. Whenever [processQuery] returns, the reply it returns has a
    first candidate, no part of that candidate's content has a
    [functionCall] field, and that content is the last turn of the
    returned history. *)
Theorem processQuery_returns_call_free_reply env fuel query role savedContent w
  reply history w' :
  processQuery env fuel query role savedContent w = (Ok (reply, history), w') ->
  exists first others earlier,
    candidates reply = first :: others
    /\ Forall (fun part => functionCall part = None) (parts (content first))
    /\ history = earlier ++ [content first].
Proof.
  unfold processQuery.
  generalize (savedContent ++ [{| parts := [text_part query]; role := role |}]).
  intros cc. revert cc w.
  induction fuel as [| fuel IH]; intros cc w Hrun; simpl in Hrun; [discriminate |].
  apply bind_inv_Ok in Hrun. destruct Hrun as [step [w1 [Hbody Hrun]]].
  destruct step as [result | cc'].
  - injection Hrun as -> <-. apply loop_body_inv in Hbody.
    destruct Hbody as [tls [w0 [reply0 [first [others [_ [_ [Hcand Hstep]]]]]]]].
    destruct (forallb no_functionCall (parts (content first))) eqn:Hnone.
    + destruct Hstep as [Hstep _]. injection Hstep as -> ->.
      exists first, others, cc. split; [exact Hcand |].
      split; [apply forallb_no_functionCall_Forall; exact Hnone | reflexivity].
    + destruct Hstep as [frs [_ Hstep]]. discriminate.
  - exact (IH _ _ Hrun).
Qed.

Lemma processQuery_returns_call_free_reply_witness :
  exists first others earlier,
    candidates (model_reply [text_part "done"]) = first :: others
    /\ Forall (fun part => functionCall part = None) (parts (content first))
    /\ [{| parts := [text_part "go"]; role := "user" |};
        {| parts := [call_part "add" two_plus_two; text_part "and";
                     call_part "echo" (VObj [("s", VStr "hi")])];
           role := "model" |};
        {| parts := [response_part {| fc_name := "add"; fc_args := two_plus_two |}
                       {| success := true; response := text_result "4" |};
                     response_part
                       {| fc_name := "echo"; fc_args := VObj [("s", VStr "hi")] |}
                       {| success := false; response := VNull |}];
           role := "user" |};
        {| parts := [text_part "done"]; role := "model" |}]
       = earlier ++ [content first].
Proof.
  apply (processQuery_returns_call_free_reply demo_env_two_calls 3 "go" "user" []
           (startup [0; 1]) _ _
           (snd (processQuery demo_env_two_calls 3 "go" "user" [] (startup [0; 1])))).
  reflexivity.
Defined.

(** ** A call of a tool that is not in the registry *)

(** [dispatch] raises a [TypeError] at the first call whose tool has no
    entry, before asking anything, once the calls before it are served. *)
Lemma dispatch_unknown_tool env cache call ps :
  forall acc w,
    _cachedTools (agent w) = Some cache ->
    (exists rest, calls_of ps = call :: rest) ->
    obj_get (fc_name call) cache = None ->
    dispatch env ps acc w = (Throw TypeError, w).
Proof.
  induction ps as [| part ps IH]; intros acc w Hcache [rest Hcalls] Hentry;
    simpl in *; [discriminate |].
  destruct (functionCall part) as [call0 |]; [| apply IH; eauto].
  injection Hcalls as -> _.
  unfold bind, the_cachedTools. rewrite Hcache, Hentry. reflexivity.
Qed.

(** C2 fails on the program.  The model asks for [subtract], which no
    provider lists: [processQuery] raises a [TypeError], whatever the
    fuel, after a single [generateContent] round trip and without asking
    the operator anything; no response part is built and the loop does not
    go on. *)
Theorem processQuery_unknown_tool_raises fuel :
  let run := processQuery demo_env_unknown_tool (S fuel) "what is 2-2" "user" []
               (startup [0; 1]) in
  fst run = Throw TypeError
  /\ round_trips (trace (snd run)) = 1
  /\ questions (trace (snd run)) = []
  /\ (exists cache,
        _cachedTools (agent (snd run)) = Some cache
        /\ obj_get "subtract" cache = None).
Proof.
  cbv zeta. repeat split.
  exists [("add", entry_for 1 other_add_tool); ("echo", entry_for 0 echo_tool)].
  split; reflexivity.
Qed.

(** ** Transport selection *)

Lemma value_eqb_str_false v s : v <> VStr s -> value_eqb_str v s = false.
Proof.
  intros Hne. destruct v; simpl; try reflexivity.
  apply String.eqb_neq. intros ->. apply Hne. reflexivity.
Qed.

Lemma make_client_rejects_Error env config e :
  make_client env config = Rejected e -> exists message, e = Error message.
Proof.
  unfold make_client.
  destruct (negb (obj_has "url" config)); [discriminate |].
  destruct (value_eqb_str (obj_lookup "type" config) "http"); [discriminate |].
  destruct (value_eqb_str (obj_lookup "type" config) "sse"); [discriminate |].
  intros H. injection H as <-. eexists. reflexivity.
Qed.

(** C9 as stated fails on the program: a descriptor whose type is
    neither http nor sse and that has neither [command] nor [args] is
    accepted when it has no [url] key; it is taken for a local-process
    descriptor and nothing is raised at construction. *)
Lemma getMCPClients_accepts_unknown_type_without_url :
  let config := [("type", VStr "websocket")] in
  obj_lookup "type" config <> VStr "http"
  /\ obj_lookup "type" config <> VStr "sse"
  /\ obj_has "command" config = false
  /\ obj_has "args" config = false
  /\ getMCPClients demo_env [("remote", config)]
     = Fulfilled [new_MCPClient (StdioClientTransport VUndefined VUndefined)].
Proof.
  cbv zeta. repeat split; try reflexivity; discriminate.
Qed.

(** C9, amended. A descriptor that has a [url] key and whose type is
    neither http nor sse makes the construction of its client raise the
    error Unknown transport type, and makes [getMCPClients] raise an
    error on any configuration it belongs to. *)
Theorem getMCPClients_rejects_unknown_type env mcpConfig nm config :
  In (nm, config) mcpConfig ->
  obj_has "url" config = true ->
  obj_lookup "type" config <> VStr "http" ->
  obj_lookup "type" config <> VStr "sse" ->
  make_client env config
  = Rejected (Error ("Unknown transport type: "
                       ++ ToString env (obj_lookup "type" config)))
  /\ exists message, getMCPClients env mcpConfig = Rejected (Error message).
Proof.
  intros Hin Hurl Hhttp Hsse.
  assert (Hmake : make_client env config
                  = Rejected (Error ("Unknown transport type: "
                                       ++ ToString env (obj_lookup "type" config)))).
  { unfold make_client. rewrite Hurl. simpl.
    rewrite (value_eqb_str_false _ _ Hhttp), (value_eqb_str_false _ _ Hsse).
    reflexivity. }
  split; [exact Hmake |].
  induction mcpConfig as [| [nm0 config0] rest IH]; [destruct Hin |].
  simpl. destruct (make_client env config0) as [c | e] eqn:Hfirst.
  - destruct Hin as [Heq | Hin].
    + injection Heq as _ ->. rewrite Hmake in Hfirst. discriminate.
    + destruct (IH Hin) as [message ->]. eauto.
  - destruct (make_client_rejects_Error _ _ _ Hfirst) as [message ->]. eauto.
Qed.

Lemma getMCPClients_rejects_unknown_type_witness :
  exists message,
    getMCPClients demo_env
      [("local", [("command", VStr "node"); ("args", VArr [VStr "server.js"])]);
       ("remote", [("type", VStr "websocket"); ("url", VStr "ws://localhost:1")])]
    = Rejected (Error message).
Proof.
  apply (getMCPClients_rejects_unknown_type demo_env _ "remote"
           [("type", VStr "websocket"); ("url", VStr "ws://localhost:1")]).
  - simpl. right. left. reflexivity.
  - reflexivity.
  - discriminate.
  - discriminate.
Defined.

(** * More of the program *)

(** ** Connections and listings of one client *)

Lemma connect_queries_app h evs1 evs2 :
  connect_queries h (evs1 ++ evs2) = connect_queries h evs1 + connect_queries h evs2.
Proof.
  induction evs1 as [| ev evs1 IH]; simpl; [reflexivity |].
  destruct ev; simpl; rewrite IH; lia.
Qed.

Lemma connect_run_refl finished w : connect_run finished w w.
Proof.
  exists []. rewrite app_nil_r. split; [reflexivity |]. split.
  - intros h. simpl. destruct finished; lia.
  - intros h. split; auto.
Qed.

Lemma connect_run_trans finished w1 w2 w3 :
  connect_run true w1 w2 -> connect_run finished w2 w3 -> connect_run finished w1 w3.
Proof.
  intros [evs1 [Ht1 [Hq1 Hg1]]] [evs2 [Ht2 [Hq2 Hg2]]].
  exists (evs1 ++ evs2). split; [| split].
  - rewrite Ht2, Ht1, app_assoc. reflexivity.
  - intros h. rewrite connect_queries_app.
    specialize (Hq1 h). specialize (Hq2 h). lia.
  - intros h. destruct (Hg1 h) as [Hi1 Hl1]. destruct (Hg2 h) as [Hi2 Hl2].
    split; auto.
Qed.

Lemma connect_run_set_cachedTools finished c w :
  connect_run finished w (set_cachedTools c w).
Proof.
  exists []. simpl. rewrite app_nil_r. split; [reflexivity |]. split.
  - intros h. unfold connect_budget. simpl. destruct finished; lia.
  - intros h. split; auto.
Qed.

(** A run that touches one client only. *)
Lemma connect_run_one (finished : bool) (w w' : World) (h : Handle)
  (evs : list Event) :
  trace w' = trace w ++ evs ->
  (forall h0, h0 <> h -> clients w' h0 = clients w h0) ->
  (forall h0, h0 <> h -> connect_queries h0 evs = 0) ->
  connect_queries h evs + (if finished then connect_budget w' h else 0)
  <= connect_budget w h ->
  (initialised (clients w h) = true -> initialised (clients w' h) = true) ->
  (forall listed,
     tools (clients w h) = Some listed -> tools (clients w' h) = Some listed) ->
  connect_run finished w w'.
Proof.
  intros Ht Hframe Hother Hbudget Hinit Hkeep. exists evs.
  split; [exact Ht |]. split.
  - intros h0. destruct (Nat.eq_dec h0 h) as [-> | Hne]; [exact Hbudget |].
    rewrite (Hother h0 Hne). unfold connect_budget. rewrite (Hframe h0 Hne).
    destruct finished; lia.
  - intros h0. destruct (Nat.eq_dec h0 h) as [-> | Hne]; [split; assumption |].
    rewrite (Hframe h0 Hne). split; auto.
Qed.

(** What [getTool] does to the connections: at most the budgeted
    connection request, and a client that answers is left connected and
    holding the list. *)
Lemma getTool_connects env h w o w' :
  getTool env h w = (o, w') ->
  connect_run (is_Ok o) w w'
  /\ (forall listed,
        o = Ok listed ->
        initialised (clients w' h) = true /\ tools (clients w' h) = Some listed).
Proof.
  unfold getTool, initiate, bind, await, get_client, put_client, ret.
  destruct (initialised (clients w h)) eqn:Hinit; simpl.
  - destruct (tools (clients w h)) as [cached |] eqn:Htools.
    + intros H. injection H as <- <-. split; [apply connect_run_refl |].
      intros listed H. injection H as <-. auto.
    + destruct (mcp_listTools env (trace w) h) as [listed | e]; simpl;
        intros H; injection H as <- <-; split.
      * apply (connect_run_one _ _ _ h [EvListTools h]); one_client h.
      * intros l0 H. injection H as <-. simpl. rewrite Nat.eqb_refl.
        simpl. auto.
      * apply (connect_run_one _ _ _ h [EvListTools h]); one_client h.
      * intros l0 H. discriminate.
  - rewrite Hinit.
    destruct (mcp_connect env (trace w) h) as [u | e]; simpl.
    + rewrite ?Nat.eqb_refl. simpl.
      destruct (tools (clients w h)) as [cached |] eqn:Htools.
      * intros H. injection H as <- <-. split.
        -- apply (connect_run_one _ _ _ h [EvConnect h]); one_client h.
        -- intros l0 H. injection H as <-. simpl. rewrite Nat.eqb_refl. auto.
      * destruct (mcp_listTools env _ h) as [listed | e]; simpl;
          intros H; injection H as <- <-; split.
        -- apply (connect_run_one _ _ _ h [EvConnect h; EvListTools h]); one_client h.
        -- intros l0 H. injection H as <-. simpl. rewrite Nat.eqb_refl. auto.
        -- apply (connect_run_one _ _ _ h [EvConnect h; EvListTools h]); one_client h.
        -- intros l0 H. discriminate.
    + intros H. injection H as <- <-. split.
      * apply (connect_run_one _ _ _ h [EvConnect h]); one_client h.
      * intros l0 H. discriminate.
Qed.

Lemma getTool_held env h w listed :
  initialised (clients w h) = true ->
  tools (clients w h) = Some listed ->
  getTool env h w = (Ok listed, w).
Proof.
  intros Hinit Htools. unfold getTool, bind, get_client, ret.
  rewrite Hinit. simpl. rewrite Htools. reflexivity.
Qed.

(** X1. A client that has listed its tools answers [getTool] again with
    the same list and without any request: the world is left as it is. *)
Theorem getTool_again env h w listed w1 :
  getTool env h w = (Ok listed, w1) ->
  getTool env h w1 = (Ok listed, w1).
Proof.
  intros Hget. destruct (getTool_connects _ _ _ _ _ Hget) as [_ Hheld].
  destruct (Hheld listed eq_refl) as [Hinit Htools].
  apply getTool_held; assumption.
Qed.

Lemma getTool_again_witness :
  getTool demo_env 0 (snd (getTool demo_env 0 (startup [0; 1])))
  = (Ok [add_tool; echo_tool], snd (getTool demo_env 0 (startup [0; 1]))).
Proof.
  apply (getTool_again demo_env 0 (startup [0; 1])). reflexivity.
Defined.

(** ** What a run of [loadTools] leaves behind, whatever its outcome *)

Lemma loadTools_each_partial env hs :
  forall w o w' c0,
    loadTools_each env hs w = (o, w') ->
    _cachedTools (agent w) = Some c0 ->
    connect_run (is_Ok o) w w'
    /\ mcpClients (agent w') = mcpClients (agent w)
    /\ exists done todo,
         hs = done ++ todo
         /\ _cachedTools (agent w')
            = Some (register_all (registrations (clients w') done) c0)
         /\ (forall h, In h done ->
                       initialised (clients w' h) = true
                       /\ tools (clients w' h) <> None)
         /\ (is_Ok o = true -> todo = [])
         /\ (is_Ok o = false -> todo <> []).
Proof.
  induction hs as [| h hs IH]; intros w o w' c0 Hrun Hcache.
  - injection Hrun as <- <-. split; [apply connect_run_refl |].
    split; [reflexivity |]. exists [], []. simpl.
    repeat split; auto; try discriminate; try (intros ? []).
  - simpl in Hrun. unfold bind in Hrun.
    destruct (getTool env h w) as [[listed | e |] w1] eqn:Hget;
      destruct (getTool_connects _ _ _ _ _ Hget) as [Hconn Hheld];
      destruct (getTool_effect _ _ _ _ _ Hget) as [_ [Hagent _]].
    + unfold the_cachedTools in Hrun. rewrite Hagent, Hcache in Hrun.
      unfold put_cachedTools in Hrun.
      set (c1 := fold_left (register_tool h) listed c0) in Hrun.
      destruct (IH (set_cachedTools c1 w1) o w' c1 Hrun eq_refl)
        as [Hrest [Hclients [done [todo [Hsplit [Hc' [Hdone [Hok Hko]]]]]]]].
      destruct (Hheld listed eq_refl) as [Hinit Htools].
      assert (Hgrow : initialised (clients w' h) = true
                      /\ tools (clients w' h) = Some listed).
      { destruct Hrest as [evs [_ [_ Hg]]]. destruct (Hg h) as [Hi Hl].
        split; [apply Hi | apply Hl]; assumption. }
      split; [| split].
      * eapply connect_run_trans; [exact Hconn |].
        eapply connect_run_trans; [apply (connect_run_set_cachedTools true) | exact Hrest].
      * rewrite Hclients. simpl. rewrite Hagent. reflexivity.
      * exists (h :: done), todo. split; [rewrite Hsplit; reflexivity |].
        split; [| split; [| split]].
        -- rewrite (registrations_cons _ _ _ _ (proj2 Hgrow)),
             register_all_app, register_all_owned. exact Hc'.
        -- intros h0 [<- | Hin]; [| auto].
           destruct Hgrow as [Hi Hl]. split; [exact Hi | congruence].
        -- exact Hok.
        -- exact Hko.
    + injection Hrun as <- <-. split; [exact Hconn |].
      split; [rewrite Hagent; reflexivity |].
      exists [], (h :: hs). simpl. rewrite Hagent.
      repeat split; auto; try discriminate; try (intros ? []).
    + injection Hrun as <- <-. split; [exact Hconn |].
      split; [rewrite Hagent; reflexivity |].
      exists [], (h :: hs). simpl. rewrite Hagent.
      repeat split; auto; try discriminate; try (intros ? []).
Qed.

(** A first [loadTools], whatever its outcome. *)
Lemma loadTools_partial env w o w' :
  _cachedTools (agent w) = None ->
  loadTools env w = (o, w') ->
  connect_run (is_Ok o) w w'
  /\ exists done todo,
       mcpClients (agent w) = done ++ todo
       /\ _cachedTools (agent w')
          = Some (register_all (registrations (clients w') done) [])
       /\ (forall h, In h done ->
                     initialised (clients w' h) = true
                     /\ tools (clients w' h) <> None)
       /\ (is_Ok o = true -> todo = [])
       /\ (is_Ok o = false -> todo <> []).
Proof.
  intros Hnull. unfold loadTools, bind, get_agent, put_cachedTools. rewrite Hnull.
  destruct (loadTools_each env (mcpClients (agent w)) (set_cachedTools [] w))
    as [[[] | e |] w1] eqn:Heach;
    destruct (loadTools_each_partial _ _ _ _ _ _ Heach eq_refl)
      as [Hconn [_ [done [todo [Hsplit [Hcache Hrest]]]]]];
    simpl in Hsplit.
  - unfold the_cachedTools, ret. rewrite Hcache. intros H. injection H as <- <-.
    split.
    + eapply connect_run_trans; [apply (connect_run_set_cachedTools true) | exact Hconn].
    + exists done, todo. auto.
  - intros H. injection H as <- <-. split.
    + eapply connect_run_trans; [apply (connect_run_set_cachedTools true) | exact Hconn].
    + exists done, todo. auto.
  - intros H. injection H as <- <-. split.
    + eapply connect_run_trans; [apply (connect_run_set_cachedTools true) | exact Hconn].
    + exists done, todo. auto.
Qed.

(** X2. Two calls of [loadTools] in a row send every client at most one
    connection request, and none to a client that is already connected:
    a connection that failed is not tried again by the second call. *)
Theorem loadTools_connects_once env w :
  let first := loadTools env w in
  let second := loadTools env (snd first) in
  exists evs,
    trace (snd second) = trace w ++ evs
    /\ forall h,
         connect_queries h evs <= 1
         /\ (initialised (clients w h) = true -> connect_queries h evs = 0).
Proof.
  intros first second.
  destruct (loadTools env w) as [o w1] eqn:Hfirst.
  destruct (loadTools_effect _ _ _ _ Hfirst) as [_ [cache [Hcache _]]].
  assert (Hsecond : second = (Ok (declarations cache), w1)).
  { subst second first. simpl. apply loadTools_cached. exact Hcache. }
  rewrite Hsecond. subst first. simpl.
  assert (Hconn : connect_run (is_Ok o) w w1).
  { destruct (_cachedTools (agent w)) as [c |] eqn:Hc.
    - rewrite (loadTools_cached _ _ _ Hc) in Hfirst. injection Hfirst as <- <-.
      apply connect_run_refl.
    - apply (loadTools_partial _ _ _ _ Hc Hfirst). }
  destruct Hconn as [evs [Htrace [Hbudget _]]]. exists evs.
  split; [exact Htrace |]. intros h. specialize (Hbudget h).
  unfold connect_budget in Hbudget.
  destruct (initialised (clients w h)); destruct (is_Ok o);
    split; try lia; intros; try discriminate; lia.
Qed.





(** X4. Whatever the outcome of a first [loadTools], the owner of every
    entry of the cache is a configured client that is connected and that
    holds, in the list it got from its provider, a tool of the entry's
    name. *)
Theorem loadTools_owners_connected env w o w' :
  _cachedTools (agent w) = None ->
  loadTools env w = (o, w') ->
  exists cache,
    _cachedTools (agent w') = Some cache
    /\ forall n entry,
         obj_get n cache = Some entry ->
         In (client entry) (mcpClients (agent w))
         /\ initialised (clients w' (client entry)) = true
         /\ exists listed tool,
              tools (clients w' (client entry)) = Some listed
              /\ In tool listed
              /\ tool_name tool = n
              /\ entry = entry_for (client entry) tool.
Proof.
  intros Hnull Hrun.
  destruct (loadTools_partial _ _ _ _ Hnull Hrun)
    as [_ [done [todo [Hsplit [Hcache [Hdone _]]]]]].
  eexists. split; [exact Hcache |].
  intros n entry Hget. rewrite register_all_get in Hget.
  destruct (last_named n _) as [[h tool] |] eqn:Hlast; [| discriminate].
  injection Hget as <-. apply last_named_In in Hlast. destruct Hlast as [Hin Hn].
  apply In_registrations in Hin. destruct Hin as [Hh [listed [Hlisted Htool]]].
  simpl. split; [rewrite Hsplit; apply in_or_app; auto |].
  split; [apply (Hdone h Hh) |]. exists listed, tool. auto.
Qed.

Lemma loadTools_owners_connected_witness :
  exists cache,
    _cachedTools (agent (snd (loadTools flaky_env (startup [0; 1; 2])))) = Some cache
    /\ forall n entry,
         obj_get n cache = Some entry ->
         initialised
           (clients (snd (loadTools flaky_env (startup [0; 1; 2]))) (client entry))
         = true.
Proof.
  destruct (loadTools_owners_connected flaky_env (startup [0; 1; 2])
              (fst (loadTools flaky_env (startup [0; 1; 2])))
              (snd (loadTools flaky_env (startup [0; 1; 2])))
              eq_refl eq_refl)
    as [cache [Hcache Hentries]].
  exists cache. split; [exact Hcache |].
  intros n entry Hget. apply (Hentries n entry Hget).
Defined.

(** ** No provider call without the operator's yes *)

Lemma bind_cases {A B : Type} (m : M A) (k : A -> M B) w o w' :
  bind m k w = (o, w') ->
  (exists a w1, m w = (Ok a, w1) /\ k a w1 = (o, w'))
  \/ (exists e, m w = (Throw e, w') /\ o = Throw e)
  \/ (m w = (OutOfFuel, w') /\ o = OutOfFuel).
Proof.
  unfold bind. destruct (m w) as [[a | e |] w1]; intros H.
  - left. eauto.
  - injection H as <- <-. right. left. eauto.
  - injection H as <- <-. right. right. auto.
Qed.

Lemma gated_silent env tr evs : provider_calls evs = [] -> gated env tr evs.
Proof.
  intros Hnone before h toolName args after Hsplit. subst evs.
  rewrite provider_calls_app in Hnone. simpl in Hnone.
  apply app_eq_nil in Hnone. destruct Hnone as [_ Hnone]. discriminate.
Qed.

Lemma gated_app env tr evs1 evs2 :
  gated env tr evs1 -> gated env (tr ++ evs1) evs2 -> gated env tr (evs1 ++ evs2).
Proof.
  intros H1 H2 before h toolName args after Hsplit.
  apply app_eq_app in Hsplit. destruct Hsplit as [l [[Hl Hr] | [Hl Hr]]].
  - destruct l as [| ev l].
    + simpl in Hr. rewrite app_nil_r in Hl. subst before.
      destruct (H2 [] h toolName args after (eq_sym Hr)) as [earlier [Hnil _]].
      destruct earlier; discriminate.
    + injection Hr as <- ->. exact (H1 before h toolName args l Hl).
  - destruct (H2 l h toolName args after Hr) as [earlier [Hearlier Hyes]].
    exists (evs1 ++ earlier). subst l before. rewrite <- !app_assoc.
    split; [reflexivity |]. rewrite <- app_assoc in Hyes. exact Hyes.
Qed.

Lemma gated_confirmed env tr h toolName args :
  rl_question env tr (confirm_prompt env toolName args) = Fulfilled "yes" ->
  gated env tr [EvQuestion (confirm_prompt env toolName args);
                EvCallTool h toolName args].
Proof.
  intros Hyes before h0 n0 a0 after Hsplit.
  destruct before as [| b1 [| b2 before]]; simpl in Hsplit.
  - discriminate.
  - injection Hsplit as <- <- <- <- <-. exists []. rewrite app_nil_r. auto.
  - injection Hsplit as _ _ Hsplit. destruct before; discriminate.
Qed.

Lemma gated_run_refl env w : gated_run env w w.
Proof.
  exists []. rewrite app_nil_r. split; [reflexivity | apply gated_silent; reflexivity].
Qed.

Lemma gated_run_trans env w1 w2 w3 :
  gated_run env w1 w2 -> gated_run env w2 w3 -> gated_run env w1 w3.
Proof.
  intros [evs1 [Ht1 Hg1]] [evs2 [Ht2 Hg2]]. exists (evs1 ++ evs2).
  split; [rewrite Ht2, Ht1, app_assoc; reflexivity |].
  apply gated_app; [exact Hg1 | rewrite <- Ht1; exact Hg2].
Qed.

(** Whatever its outcome, [callTool] calls the provider only after a
    yes, and changes neither the agent nor the clients. *)
Lemma callTool_gated env h toolName args w o w' :
  callTool env h toolName args w = (o, w') ->
  gated_run env w w' /\ agent w' = agent w /\ clients w' = clients w.
Proof.
  destruct (rl_question env (trace w) (confirm_prompt env toolName args))
    as [answer | e] eqn:Hline.
  - rewrite (callTool_run env _ _ _ _ _ Hline).
    destruct (String.eqb answer "yes") eqn:Hyes.
    + apply String.eqb_eq in Hyes. subst answer.
      intros H. injection H as _ <-. simpl. split; [| auto].
      exists [EvQuestion (confirm_prompt env toolName args);
              EvCallTool h toolName args].
      simpl. rewrite <- app_assoc. split; [reflexivity |].
      apply gated_confirmed. exact Hline.
    + intros H. injection H as _ <-. simpl. split; [| auto].
      exists [EvQuestion (confirm_prompt env toolName args);
              EvLog "Tool call cancelled."].
      simpl. rewrite <- app_assoc. split; [reflexivity |].
      apply gated_silent. reflexivity.
  - unfold callTool, bind, await. rewrite Hline.
    intros H. injection H as _ <-. simpl. split; [| auto].
    exists [EvQuestion (confirm_prompt env toolName args)].
    split; [reflexivity | apply gated_silent; reflexivity].
Qed.

Lemma dispatch_gated env ps :
  forall acc w o w',
    dispatch env ps acc w = (o, w') ->
    gated_run env w w' /\ agent w' = agent w /\ clients w' = clients w.
Proof.
  induction ps as [| part ps IH]; intros acc w o w' Hrun; simpl in Hrun.
  - injection Hrun as _ <-. split; [apply gated_run_refl | auto].
  - destruct (functionCall part) as [call |]; [| exact (IH _ _ _ _ Hrun)].
    unfold bind at 1 in Hrun. unfold the_cachedTools in Hrun.
    destruct (_cachedTools (agent w)) as [cache |];
      [| injection Hrun as _ <-; split; [apply gated_run_refl | auto]].
    destruct (obj_get (fc_name call) cache) as [entry |];
      [| injection Hrun as _ <-; split; [apply gated_run_refl | auto]].
    apply bind_cases in Hrun.
    destruct Hrun as [[outcome [w1 [Hcall Hrest]]] | [[e [Hcall _]] | [Hcall _]]].
    + destruct (callTool_gated _ _ _ _ _ _ _ Hcall) as [Hg1 [Ha1 Hc1]].
      destruct (IH _ _ _ _ Hrest) as [Hg2 [Ha2 Hc2]].
      split; [eapply gated_run_trans; eassumption |].
      split; congruence.
    + exact (callTool_gated _ _ _ _ _ _ _ Hcall).
    + exact (callTool_gated _ _ _ _ _ _ _ Hcall).
Qed.

Lemma loadTools_gated env w o w' :
  loadTools env w = (o, w') -> gated_run env w w'.
Proof.
  intros Hrun. destruct (loadTools_effect _ _ _ _ Hrun) as [[evs [Ht [Hs _]]] _].
  exists evs. split; [exact Ht |]. apply gated_silent.
  apply (setup_only_silent _ Hs).
Qed.

Lemma await_generate_gated env cc tls w o w' :
  await (EvGenerate model_id cc tls)
        (fun tr => generateContent env tr model_id cc tls) w = (o, w') ->
  gated_run env w w'.
Proof.
  unfold await. intros H. exists [EvGenerate model_id cc tls].
  split; [| apply gated_silent; reflexivity].
  destruct (generateContent env (trace w) model_id cc tls);
    injection H as _ <-; reflexivity.
Qed.

Lemma loop_body_gated env cc w o w' :
  loop_body env cc w = (o, w') -> gated_run env w w'.
Proof.
  unfold loop_body. intros Hrun. apply bind_cases in Hrun.
  destruct Hrun as [[tls [w1 [Hload Hrun]]] | [[e [Hload _]] | [Hload _]]];
    try exact (loadTools_gated _ _ _ _ Hload).
  apply (gated_run_trans _ _ w1); [exact (loadTools_gated _ _ _ _ Hload) |].
  apply bind_cases in Hrun.
  destruct Hrun as [[reply [w2 [Hgen Hrun]]] | [[e [Hgen _]] | [Hgen _]]];
    try exact (await_generate_gated _ _ _ _ _ _ Hgen).
  apply (gated_run_trans _ _ w2); [exact (await_generate_gated _ _ _ _ _ _ Hgen) |].
  destruct (candidates reply) as [| first others].
  - injection Hrun as _ <-. apply gated_run_refl.
  - destruct (forallb no_functionCall (parts (content first))).
    + injection Hrun as _ <-. apply gated_run_refl.
    + apply bind_cases in Hrun.
      destruct Hrun as [[frs [w3 [Hdisp Hrun]]] | [[e [Hdisp _]] | [Hdisp _]]];
        try exact (proj1 (dispatch_gated _ _ _ _ _ _ Hdisp)).
      injection Hrun as _ <-. exact (proj1 (dispatch_gated _ _ _ _ _ _ Hdisp)).
Qed.

Lemma processQuery_loop_gated env fuel :
  forall cc w o w', processQuery_loop env fuel cc w = (o, w') -> gated_run env w w'.
Proof.
  induction fuel as [| fuel IH]; intros cc w o w' Hrun; simpl in Hrun.
  - injection Hrun as _ <-. apply gated_run_refl.
  - apply bind_cases in Hrun.
    destruct Hrun as [[step [w1 [Hbody Hrun]]] | [[e [Hbody _]] | [Hbody _]]];
      try exact (loop_body_gated _ _ _ _ _ Hbody).
    apply (gated_run_trans _ _ w1); [exact (loop_body_gated _ _ _ _ _ Hbody) |].
    destruct step as [result | cc'].
    + injection Hrun as _ <-. apply gated_run_refl.
    + exact (IH _ _ _ _ Hrun).
Qed.

(** X5. Whatever the fuel and whatever the outcome (a return, an
    exception, fuel that ran out), every provider call that a run of
    [processQuery] adds to the trace comes right after the confirmation
    question for that very tool and arguments, and the operator answered
    that question with yes. *)
Theorem processQuery_calls_are_confirmed env fuel query role savedContent w :
  exists evs,
    trace (snd (processQuery env fuel query role savedContent w)) = trace w ++ evs
    /\ forall before h toolName args after,
         evs = before ++ EvCallTool h toolName args :: after ->
         exists earlier,
           before = earlier ++ [EvQuestion (confirm_prompt env toolName args)]
           /\ rl_question env (trace w ++ earlier) (confirm_prompt env toolName args)
              = Fulfilled "yes".
Proof.
  unfold processQuery.
  destruct (processQuery_loop env fuel
              (savedContent ++ [{| parts := [text_part query]; role := role |}]) w)
    as [o w'] eqn:Hrun.
  exact (processQuery_loop_gated _ _ _ _ _ _ Hrun).
Qed.

(** ** The shape of the history that [processQuery] returns *)

Lemma Dispatched_answers env cache tr calls frs evs :
  Dispatched env cache tr calls frs evs ->
  Forall2
    (fun call part =>
       text part = None
       /\ functionCall part = None
       /\ exists fr, functionResponse part = Some fr /\ fr_name fr = fc_name call)
    calls frs.
Proof.
  induction 1; constructor; simpl; eauto.
Qed.

Lemma turns_of_cons r rounds : turns_of (r :: rounds) = fst r :: snd r :: turns_of rounds.
Proof. reflexivity. Qed.

Lemma calls_in_cons r rounds :
  calls_in (r :: rounds) = calls_of (parts (fst r)) ++ calls_in rounds.
Proof. reflexivity. Qed.

Lemma processQuery_loop_shape env fuel :
  forall cc w reply history w',
    processQuery_loop env fuel cc w = (Ok (reply, history), w') ->
    exists rounds final evs,
      history = cc ++ turns_of rounds ++ [final]
      /\ Forall (fun r => calls_of (parts (fst r)) <> []
                          /\ answers_calls (fst r) (snd r)) rounds
      /\ calls_of (parts final) = []
      /\ trace w' = trace w ++ evs
      /\ round_trips evs = S (length rounds)
      /\ questions evs = map (prompt_of env) (calls_in rounds).
Proof.
  induction fuel as [| fuel IH]; intros cc w reply history w' Hrun;
    simpl in Hrun; [discriminate |].
  apply bind_inv_Ok in Hrun. destruct Hrun as [step [w1 [Hbody Hrun]]].
  apply loop_body_inv in Hbody.
  destruct Hbody as [tls [w0 [reply0 [first [others [Hload [_ [_ Hstep]]]]]]]].
  destruct (loadTools_effect _ _ _ _ Hload)
    as [[evs0 [Htrace0 [Hsetup _]]] [cache [Hcache _]]].
  destruct (setup_only_silent _ Hsetup) as [Hq0 [_ Hr0]].
  destruct (forallb no_functionCall (parts (content first))) eqn:Hnone.
  - destruct Hstep as [-> ->]. injection Hrun as <- <- <-.
    exists [], (content first), (evs0 ++ [EvGenerate model_id cc tls]).
    split; [reflexivity |]. split; [constructor |].
    split; [apply forallb_no_functionCall; exact Hnone |].
    split; [simpl; rewrite Htrace0, <- app_assoc; reflexivity |].
    split; [rewrite round_trips_app, Hr0; reflexivity |].
    rewrite questions_app, Hq0. reflexivity.
  - destruct Hstep as [frs [Hdisp ->]].
    apply (dispatch_Ok env cache) in Hdisp; [| exact Hcache].
    destruct Hdisp as [new [evs1 [Hfrs [Htrace1 [_ [_ Hserved]]]]]].
    simpl in Hfrs, Htrace1. subst frs.
    destruct (Dispatched_questions _ _ _ _ _ _ Hserved) as [Hq1 [_ Hr1]].
    apply IH in Hrun.
    destruct Hrun as [rounds [final [evs2 [Hhist [Hrounds [Hfinal [Htrace2 [Hr2 Hq2]]]]]]]].
    exists ((content first, {| parts := new; role := "user" |}) :: rounds), final,
      (evs0 ++ EvGenerate model_id cc tls :: evs1 ++ evs2).
    split; [rewrite Hhist, turns_of_cons; simpl; rewrite <- !app_assoc; reflexivity |].
    split.
    { constructor; [| exact Hrounds]. simpl. split.
      - intros Hcalls. apply forallb_no_functionCall in Hcalls. congruence.
      - split; [reflexivity |]. simpl. exact (Dispatched_answers _ _ _ _ _ _ Hserved). }
    split; [exact Hfinal |].
    split; [rewrite Htrace2, Htrace1, Htrace0, <- !app_assoc; reflexivity |].
    split.
    + rewrite round_trips_app. simpl. rewrite round_trips_app, Hr0, Hr1, Hr2.
      reflexivity.
    + rewrite calls_in_cons, map_app. rewrite questions_app. simpl.
      rewrite questions_app, Hq0, Hq1, Hq2. reflexivity.
Qed.

(** X6. The history that [processQuery] returns is the saved history, the
    user turn of the query, then for every round in which the model asked
    for tools its turn followed by one user turn that answers its calls
    (one function response per call, in order, named after the call), and
    last a model turn without function call.  The run made one
    [generateContent] round trip per model turn and asked the operator
    once per call, in the order of the calls. *)
Theorem processQuery_history_shape env fuel query role savedContent w
  reply history w' :
  processQuery env fuel query role savedContent w = (Ok (reply, history), w') ->
  exists rounds final evs,
    history
    = savedContent ++ {| parts := [text_part query]; role := role |}
        :: turns_of rounds ++ [final]
    /\ Forall (fun r => calls_of (parts (fst r)) <> []
                        /\ answers_calls (fst r) (snd r)) rounds
    /\ calls_of (parts final) = []
    /\ trace w' = trace w ++ evs
    /\ round_trips evs = S (length rounds)
    /\ questions evs = map (prompt_of env) (calls_in rounds).
Proof.
  unfold processQuery. intros Hrun.
  apply processQuery_loop_shape in Hrun.
  destruct Hrun as [rounds [final [evs [Hhist Hrest]]]].
  exists rounds, final, evs. split; [| exact Hrest].
  rewrite Hhist, <- app_assoc. reflexivity.
Qed.

Lemma processQuery_history_shape_witness :
  exists reply history w',
    processQuery demo_env_two_calls 3 "go" "user" [system_turn] (startup [0; 1])
    = (Ok (reply, history), w')
    /\ exists rounds final evs,
         history
         = [system_turn] ++ {| parts := [text_part "go"]; role := "user" |}
             :: turns_of rounds ++ [final]
         /\ Forall (fun r => calls_of (parts (fst r)) <> []
                             /\ answers_calls (fst r) (snd r)) rounds
         /\ calls_of (parts final) = []
         /\ trace w' = trace (startup [0; 1]) ++ evs
         /\ round_trips evs = S (length rounds)
         /\ questions evs = map (prompt_of demo_env_two_calls) (calls_in rounds).
Proof.
  destruct (processQuery demo_env_two_calls 3 "go" "user" [system_turn]
              (startup [0; 1])) as [o w'] eqn:Hrun.
  assert (Ho : exists reply history, o = Ok (reply, history)).
  { apply (f_equal fst) in Hrun. vm_compute in Hrun. subst o.
    eexists. eexists. reflexivity. }
  destruct Ho as [reply [history ->]].
  exists reply, history, w'. split; [reflexivity |].
  exact (processQuery_history_shape _ _ _ _ _ _ _ _ _ Hrun).
Defined.

(** ** A loop without bound *)

Lemma dispatch_progress env cache ps :
  operator_answers env ->
  calls_answered env ->
  Forall (fun call => obj_get (fc_name call) cache <> None) (calls_of ps) ->
  forall acc w,
    _cachedTools (agent w) = Some cache ->
    exists frs w', dispatch env ps acc w = (Ok frs, w').
Proof.
  intros Hconsole Hprovider. induction ps as [| part ps IH]; intros Hknown acc w Hcache;
    simpl in *.
  - exists acc, w. reflexivity.
  - destruct (functionCall part) as [call |]; [| apply IH; assumption].
    apply Forall_cons_iff in Hknown. destruct Hknown as [Hcall Hrest].
    unfold bind at 1. unfold the_cachedTools. rewrite Hcache.
    destruct (obj_get (fc_name call) cache) as [entry |]; [| contradiction].
    unfold bind at 1.
    destruct (Hconsole (trace w) (confirm_prompt env (fc_name call) (fc_args call)))
      as [answer Hline].
    rewrite (callTool_run env _ _ _ _ _ Hline).
    destruct (String.eqb answer "yes").
    + match goal with
      | |- context [mcp_callTool env ?tr ?h ?n ?a] =>
          destruct (Hprovider tr h n a) as [raw ->]
      end.
      apply IH; [exact Hrest | exact Hcache].
    + apply IH; [exact Hrest | exact Hcache].
Qed.

(** X7. The loop has no bound of its own: on an agent whose tools are
    loaded, with a model that asks for a known tool at every round, an
    operator who answers and providers that answer, [processQuery] uses up
    any fuel it is given without returning, and makes one
    [generateContent] round trip per unit of fuel. *)
Theorem processQuery_runs_while_asked env cache w :
  _cachedTools (agent w) = Some cache ->
  always_asks env cache ->
  operator_answers env ->
  calls_answered env ->
  forall fuel query role savedContent,
    exists w' evs,
      processQuery env fuel query role savedContent w = (OutOfFuel, w')
      /\ trace w' = trace w ++ evs
      /\ round_trips evs = fuel.
Proof.
  intros Hcache Hmodel Hconsole Hprovider fuel query role savedContent.
  unfold processQuery.
  generalize (savedContent ++ [{| parts := [text_part query]; role := role |}]).
  revert w Hcache.
  induction fuel as [| fuel IH]; intros w Hcache cc.
  - exists w, []. rewrite app_nil_r. auto.
  - destruct (Hmodel (trace w) model_id cc (declarations cache))
      as [reply [first [others [Hreply [Hcand [Hsome Hknown]]]]]].
    destruct (dispatch_progress env cache (parts (content first))
                Hconsole Hprovider Hknown []
                (record_event (EvGenerate model_id cc (declarations cache)) w) Hcache)
      as [frs [w2 Hdisp]].
    assert (Hfalse : forallb no_functionCall (parts (content first)) = false).
    { destruct (forallb no_functionCall (parts (content first))) eqn:Hb;
        [| reflexivity].
      apply forallb_no_functionCall in Hb. contradiction. }
    pose proof (loop_body_Continue env cc w _ w reply first others frs w2
                  (loadTools_cached _ _ _ Hcache) Hreply Hcand Hfalse Hdisp) as Hbody.
    pose proof Hdisp as Hd. apply (dispatch_Ok env cache) in Hd; [| exact Hcache].
    destruct Hd as [new [evs1 [_ [Htrace1 [Hagent [_ Hserved]]]]]].
    destruct (Dispatched_questions _ _ _ _ _ _ Hserved) as [_ [_ Hr1]].
    simpl in Htrace1, Hagent.
    destruct (IH w2 (eq_trans (f_equal _cachedTools Hagent) Hcache)
                (cc ++ [content first; {| parts := frs; role := "user" |}]))
      as [w' [evs2 [Hrun [Htrace2 Hr2]]]].
    exists w', (EvGenerate model_id cc (declarations cache) :: evs1 ++ evs2).
    split; [| split].
    + simpl. rewrite (bind_Ok _ _ _ _ _ Hbody). exact Hrun.
    + rewrite Htrace2, Htrace1, <- !app_assoc. reflexivity.
    + simpl. rewrite round_trips_app, Hr1, Hr2. reflexivity.
Qed.

Lemma processQuery_runs_while_asked_witness :
  exists w' evs,
    processQuery eager_env 7 "what is 2+2" "user" []
      (snd (loadTools eager_env (startup [0; 1])))
    = (OutOfFuel, w')
    /\ trace w' = trace (snd (loadTools eager_env (startup [0; 1]))) ++ evs
    /\ round_trips evs = 7.
Proof.
  apply (processQuery_runs_while_asked eager_env
           [("add", entry_for 1 other_add_tool); ("echo", entry_for 0 echo_tool)]).
  - reflexivity.
  - intros tr model cc tls. eexists. eexists. eexists.
    split; [reflexivity |]. split; [reflexivity |]. split; [discriminate |].
    repeat constructor. discriminate.
  - intros tr prompt. eexists. reflexivity.
  - intros tr h toolName args. eexists. reflexivity.
Defined.

(** ** Exceptions that end [processQuery] *)

Lemma rejection_silent {A : Type} env w (run : Outcome A * World) evs :
  trace (snd run) = trace w ++ evs ->
  provider_calls evs = [] ->
  rejection_raises env w run.
Proof.
  intros Htrace Hnone. exists evs. split; [exact Htrace |].
  intros before h toolName args after e Hsplit _. subst evs.
  rewrite provider_calls_app in Hnone. simpl in Hnone.
  apply app_eq_nil in Hnone. destruct Hnone as [_ Hnone]. discriminate.
Qed.

Lemma rejection_still {A : Type} env w (o : Outcome A) :
  rejection_raises env w (o, w).
Proof. apply (rejection_silent env w (o, w) []); [symmetry; apply app_nil_r | reflexivity]. Qed.

Lemma rejection_bind {A B : Type} env (m : M A) (k : A -> M B) w :
  rejection_raises env w (m w) ->
  (forall a w1, m w = (Ok a, w1) -> rejection_raises env w1 (k a w1)) ->
  rejection_raises env w (bind m k w).
Proof.
  intros [evs1 [Ht1 Hr1]] Hk. unfold bind.
  destruct (m w) as [[a | e0 |] w1] eqn:Hm; simpl in Ht1, Hr1.
  - destruct (Hk a w1 eq_refl) as [evs2 [Ht2 Hr2]].
    exists (evs1 ++ evs2). split; [rewrite Ht2, Ht1, app_assoc; reflexivity |].
    intros before h toolName args after e Hsplit Hrejected.
    apply app_eq_app in Hsplit. destruct Hsplit as [l [[Hl Hr] | [Hl Hr]]].
    + destruct l as [| ev l].
      * simpl in Hr. rewrite app_nil_r in Hl. subst before.
        apply (Hr2 [] h toolName args after e (eq_sym Hr)).
        rewrite app_nil_r, Ht1. exact Hrejected.
      * injection Hr as <- ->.
        destruct (Hr1 before h toolName args l e Hl Hrejected) as [Hthrow _].
        discriminate.
    + subst before. apply (Hr2 l h toolName args after e Hr).
      rewrite Ht1, <- app_assoc. exact Hrejected.
  - exists evs1. split; [exact Ht1 |].
    intros before h toolName args after e Hsplit Hrejected.
    destruct (Hr1 before h toolName args after e Hsplit Hrejected) as [Hthrow Hafter].
    injection Hthrow as ->. auto.
  - exists evs1. split; [exact Ht1 |].
    intros before h toolName args after e Hsplit Hrejected.
    destruct (Hr1 before h toolName args after e Hsplit Hrejected) as [Hthrow _].
    discriminate.
Qed.

Lemma callTool_rejection env h toolName args w :
  rejection_raises env w (callTool env h toolName args w).
Proof.
  destruct (rl_question env (trace w) (confirm_prompt env toolName args))
    as [answer | e0] eqn:Hline.
  - rewrite (callTool_run env _ _ _ _ _ Hline).
    destruct (String.eqb answer "yes").
    + exists [EvQuestion (confirm_prompt env toolName args);
              EvCallTool h toolName args].
      split; [simpl; rewrite <- app_assoc; reflexivity |].
      intros before h0 n0 a0 after e Hsplit Hrejected.
      destruct before as [| b1 [| b2 before]]; simpl in Hsplit.
      * discriminate.
      * injection Hsplit as <- <- <- <- <-. simpl in *.
        rewrite Hrejected. auto.
      * injection Hsplit as _ _ Hsplit. destruct before; discriminate.
    + apply (rejection_silent env w _
               [EvQuestion (confirm_prompt env toolName args);
                EvLog "Tool call cancelled."]);
        [simpl; rewrite <- app_assoc; reflexivity | reflexivity].
  - unfold callTool, bind, await. rewrite Hline.
    apply (rejection_silent env w _ [EvQuestion (confirm_prompt env toolName args)]);
      reflexivity.
Qed.

Lemma dispatch_rejection env ps :
  forall acc w, rejection_raises env w (dispatch env ps acc w).
Proof.
  induction ps as [| part ps IH]; intros acc w; simpl.
  - apply rejection_still.
  - destruct (functionCall part) as [call |]; [| apply IH].
    apply rejection_bind.
    + unfold the_cachedTools. destruct (_cachedTools (agent w)); apply rejection_still.
    + intros cache w1 _. destruct (obj_get (fc_name call) cache) as [entry |].
      * apply rejection_bind; [apply callTool_rejection |]. intros outcome w2 _. apply IH.
      * apply rejection_still.
Qed.

Lemma loadTools_rejection env w : rejection_raises env w (loadTools env w).
Proof.
  destruct (loadTools env w) as [o w'] eqn:Hrun.
  destruct (loadTools_effect _ _ _ _ Hrun) as [[evs [Ht [Hs _]]] _].
  apply (rejection_silent env w (o, w') evs); [exact Ht |].
  apply (setup_only_silent _ Hs).
Qed.

Lemma loop_body_rejection env cc w : rejection_raises env w (loop_body env cc w).
Proof.
  unfold loop_body. apply rejection_bind; [apply loadTools_rejection |].
  intros tls w1 _. apply rejection_bind.
  - unfold await.
    destruct (generateContent env (trace w1) model_id cc tls);
      apply (rejection_silent env w1 _ [EvGenerate model_id cc tls]); reflexivity.
  - intros reply w2 _. destruct (candidates reply) as [| first others];
      [apply rejection_still |].
    destruct (forallb no_functionCall (parts (content first)));
      [apply rejection_still |].
    apply rejection_bind; [apply dispatch_rejection |].
    intros frs w3 _. apply rejection_still.
Qed.

Lemma processQuery_loop_rejection env fuel :
  forall cc w, rejection_raises env w (processQuery_loop env fuel cc w).
Proof.
  induction fuel as [| fuel IH]; intros cc w; simpl.
  - apply rejection_still.
  - apply rejection_bind; [apply loop_body_rejection |].
    intros step w1 _. destruct step as [result | cc']; [apply rejection_still | apply IH].
Qed.

(** X8. An exception of a provider is not turned into a response part.
    In any run of [processQuery], whatever the fuel, the round and the
    place of the call in the reply, a provider call that the provider
    rejects is the last request of the run, and the run raises the
    provider's exception: no user turn is built and no history is
    returned, the later calls of the reply are not asked about, and the
    LLM is not called again. *)
Theorem processQuery_provider_exception env fuel query role savedContent w
  before h toolName args after e :
  let run := processQuery env fuel query role savedContent w in
  trace (snd run) = trace w ++ before ++ EvCallTool h toolName args :: after ->
  mcp_callTool env (trace w ++ before) h toolName args = Rejected e ->
  fst run = Throw e /\ after = [].
Proof.
  intros run Htrace Hrejected.
  destruct (processQuery_loop_rejection env fuel
              (savedContent ++ [{| parts := [text_part query]; role := role |}]) w)
    as [evs [Hevs Hraises]].
  fold (processQuery env fuel query role savedContent w) in Hevs, Hraises.
  fold run in Hevs, Hraises.
  rewrite Hevs in Htrace. apply app_inv_head in Htrace.
  exact (Hraises before h toolName args after e Htrace Hrejected).
Qed.

Lemma processQuery_provider_exception_witness :
  let run := processQuery decline_then_crash_env 4 "echo then add" "user" []
               (startup [0]) in
  fst run = Throw (Error "tool crashed")
  /\ provider_calls (trace (snd run)) = [(0, "add", two_plus_two)]
  /\ length (questions (trace (snd run))) = 2.
Proof.
  intros run. split; [| split; reflexivity].
  apply (processQuery_provider_exception decline_then_crash_env 4
           "echo then add" "user" [] (startup [0])
           (removelast (trace (snd run))) 0 "add" two_plus_two []
           (Error "tool crashed")).
  - reflexivity.
  - reflexivity.
Defined.

(** X9. A reply of the LLM without any candidate is not a final reply:
    reading [candidates[0].content] raises a [TypeError] that ends
    [processQuery] after that one round trip, before any tool is asked
    about. *)
Theorem processQuery_without_candidate env fuel query role savedContent w
  tls w1 reply :
  let asked := savedContent ++ [{| parts := [text_part query]; role := role |}] in
  loadTools env w = (Ok tls, w1) ->
  generateContent env (trace w1) model_id asked tls = Fulfilled reply ->
  candidates reply = [] ->
  processQuery env (S fuel) query role savedContent w
  = (Throw TypeError, record_event (EvGenerate model_id asked tls) w1).
Proof.
  intros asked Hload Hreply Hnone.
  unfold processQuery. fold asked. simpl. unfold loop_body.
  unfold bind at 1. rewrite (bind_Ok _ _ _ _ _ Hload).
  unfold bind, await. rewrite Hreply, Hnone. reflexivity.
Qed.

Lemma processQuery_without_candidate_witness :
  fst (processQuery
         (scripted [] [{| candidates := [] |}] demo_catalog demo_answer)
         1 "hello" "user" [] (startup [0; 1]))
  = Throw TypeError.
Proof.
  erewrite (processQuery_without_candidate
              (scripted [] [{| candidates := [] |}] demo_catalog demo_answer)
              0 "hello" "user" [] (startup [0; 1])); cycle 1.
  - reflexivity.
  - reflexivity.
  - reflexivity.
  - reflexivity.
Defined.

(** ** The declarations handed to the LLM *)

Lemma obj_set_Forall {V : Type} (P : string * V -> Prop) (k : string) (v : V)
  (o : Obj V) :
  P (k, v) -> Forall P o -> Forall P (obj_set k v o).
Proof.
  intros Hnew. induction o as [| [k0 v0] o IH]; intros Hall; simpl.
  - constructor; [exact Hnew | constructor].
  - apply Forall_cons_iff in Hall. destruct Hall as [Hhead Htail].
    destruct (String.eqb_spec k k0) as [<- | _].
    + constructor; assumption.
    + constructor; [exact Hhead | apply IH; exact Htail].
Qed.

Lemma register_all_named regs :
  forall cache,
    Forall (fun kv => name (definition (snd kv)) = fst kv) cache ->
    Forall (fun kv => name (definition (snd kv)) = fst kv) (register_all regs cache).
Proof.
  unfold register_all. induction regs as [| r regs IH]; intros cache Hall; simpl.
  - exact Hall.
  - apply IH. unfold register_tool. apply obj_set_Forall; [reflexivity | exact Hall].
Qed.

Lemma declared_names cache :
  Forall (fun kv => name (definition (snd kv)) = fst kv) cache ->
  map name (concat (map functionDeclarations (declarations cache))) = obj_keys cache.
Proof.
  unfold declarations, obj_values, obj_keys.
  induction 1 as [| [k entry] cache Hhead _ IH]; simpl; [reflexivity |].
  simpl in Hhead. rewrite Hhead, IH. reflexivity.
Qed.

Lemma In_obj_keys {V : Type} (key : string) (o : Obj V) :
  In key (obj_keys o) <-> obj_get key o <> None.
Proof.
  rewrite <- includes_In. split.
  - intros Hin Hnone. apply obj_get_None_keys in Hnone. congruence.
  - intros Hsome. destruct (includes key (obj_keys o)) eqn:Hin; [reflexivity |].
    apply obj_get_None_keys in Hin. contradiction.
Qed.

(** X10. The declarations that a first [loadTools] returns, when no
    listed tool is named [__proto__] (an assignment to that name sets the
    prototype of the cache object and adds no entry to it): every group
    holds exactly one declaration, no name is declared twice, and a name
    is declared exactly when some configured client lists a tool of that
    name. *)
Theorem loadTools_declares_each_name_once env w tls w' :
  _cachedTools (agent w) = None ->
  loadTools env w = (Ok tls, w') ->
  (forall h listed tool,
     In h (mcpClients (agent w)) ->
     tools (clients w' h) = Some listed ->
     In tool listed ->
     tool_name tool <> "__proto__") ->
  Forall (fun group => length (functionDeclarations group) = 1) tls
  /\ NoDup (map name (concat (map functionDeclarations tls)))
  /\ forall n,
       In n (map name (concat (map functionDeclarations tls)))
       <-> exists h listed tool,
             In h (mcpClients (agent w))
             /\ tools (clients w' h) = Some listed
             /\ In tool listed
             /\ tool_name tool = n.
Proof.
  intros Hnull Hrun _.
  destruct (loadTools_fresh _ _ _ _ Hnull Hrun) as [_ [cache [_ Hdone]]].
  destruct (Hdone tls eq_refl) as [-> [Hcache _]].
  assert (Hnamed : Forall (fun kv => name (definition (snd kv)) = fst kv) cache).
  { rewrite Hcache. apply register_all_named. constructor. }
  split; [| split].
  - unfold declarations. apply Forall_forall. intros group Hin.
    apply in_map_iff in Hin. destruct Hin as [entry [<- _]]. reflexivity.
  - rewrite (declared_names _ Hnamed), Hcache. apply register_all_NoDup. constructor.
  - intros n. rewrite (declared_names _ Hnamed), In_obj_keys, Hcache, register_all_get.
    split.
    + destruct (last_named n _) as [[h tool] |] eqn:Hlast;
        [| intros H; contradiction H; reflexivity].
      intros _. apply last_named_In in Hlast. destruct Hlast as [Hin Hn].
      apply In_registrations in Hin. destruct Hin as [Hh [listed [Hl Ht]]].
      exists h, listed, tool. auto.
    + intros [h [listed [tool [Hh [Hl [Ht Hn]]]]]].
      destruct (last_named n _) as [r |] eqn:Hlast; [discriminate |].
      exfalso. apply (last_named_None _ _ Hlast (h, tool)); [| exact Hn].
      apply In_registrations. eauto.
Qed.

Lemma loadTools_declares_each_name_once_witness :
  map name
    (concat (map functionDeclarations
               (declarations [("add", entry_for 1 other_add_tool);
                              ("echo", entry_for 0 echo_tool)])))
  = ["add"; "echo"]
  /\ NoDup
       (map name
          (concat (map functionDeclarations
                     (declarations [("add", entry_for 1 other_add_tool);
                                    ("echo", entry_for 0 echo_tool)])))).
Proof.
  split; [reflexivity |].
  apply (loadTools_declares_each_name_once demo_env (startup [0; 1]) _
           (snd (loadTools demo_env (startup [0; 1]))) eq_refl).
  - reflexivity.
  - intros h listed tool [<- | [<- | []]] Hlisted;
      vm_compute in Hlisted; injection Hlisted as <-; simpl;
      intros Htool; repeat destruct Htool as [<- | Htool];
      try discriminate; destruct Htool.
Defined.

(** ** Schemas *)

Lemma obj_set_new {V : Type} (k : string) (v : V) (o : Obj V) :
  ~ In k (obj_keys o) -> obj_set k v o = o ++ [(k, v)].
Proof.
  induction o as [| [k0 v0] o IH]; intros Hnew; simpl; [reflexivity |].
  simpl in Hnew. destruct (String.eqb_spec k k0) as [-> | _].
  - exfalso. apply Hnew. left. reflexivity.
  - rewrite IH; [reflexivity |]. intros Hin. apply Hnew. right. exact Hin.
Qed.

Lemma obj_get_app_new {V : Type} (k : string) (v : V) (before after : Obj V) :
  ~ In k (obj_keys before) -> obj_get k (before ++ (k, v) :: after) = Some v.
Proof.
  induction before as [| [k0 v0] before IH]; intros Hnew; simpl.
  - rewrite String.eqb_refl. reflexivity.
  - simpl in Hnew. destruct (String.eqb_spec k k0) as [-> | _].
    + exfalso. apply Hnew. left. reflexivity.
    + apply IH. intros Hin. apply Hnew. right. exact Hin.
Qed.

Lemma In_obj_keys_filter {V : Type} (f : string * V -> bool) (k : string) (o : Obj V) :
  In k (obj_keys (filter f o)) -> In k (obj_keys o).
Proof.
  unfold obj_keys. rewrite !in_map_iff. intros [kv [Hk Hin]].
  apply filter_In in Hin. exists kv. tauto.
Qed.

Lemma copy_keeps_order (schema : Obj Value) (keep : string -> bool) :
  forall before after,
    schema = before ++ after ->
    NoDup (obj_keys schema) ->
    fold_left (fun parameters k => obj_set k (obj_lookup k schema) parameters)
              (filter keep (obj_keys after))
              (filter (fun kv => keep (fst kv)) before)
    = filter (fun kv => keep (fst kv)) schema.
Proof.
  intros before after. revert before.
  induction after as [| [k v] after IH]; intros before Hsplit Hnodup; simpl.
  - rewrite Hsplit, app_nil_r. reflexivity.
  - assert (Hnew : ~ In k (obj_keys before)).
    { rewrite Hsplit in Hnodup. unfold obj_keys in Hnodup.
      rewrite map_app in Hnodup. simpl in Hnodup.
      apply NoDup_remove_2 in Hnodup. intros Hin. apply Hnodup.
      apply in_or_app. left. exact Hin. }
    assert (Hnext : schema = (before ++ [(k, v)]) ++ after).
    { rewrite Hsplit, <- app_assoc. reflexivity. }
    specialize (IH (before ++ [(k, v)]) Hnext Hnodup).
    rewrite filter_app in IH. simpl in IH.
    destruct (keep k) eqn:Hkeep; simpl.
    + rewrite <- IH. f_equal. unfold obj_lookup.
      rewrite Hsplit at 1. rewrite (obj_get_app_new _ _ _ _ Hnew).
      apply obj_set_new. intros Hin. apply Hnew.
      exact (In_obj_keys_filter _ _ _ Hin).
    + rewrite app_nil_r in IH. exact IH.
Qed.

(** X11. On a schema whose keys are distinct, as the keys of an object
    are, the [parameters] object is the schema without its
    [additionalProperties] and [$schema] properties: the other properties
    are kept with their values and in their order.  So a schema without
    these two keys is copied as it is. *)
Theorem strip_schema_keeps_order (schema : Obj Value) :
  NoDup (obj_keys schema) ->
  strip_schema schema
  = filter (fun kv => negb (includes (fst kv) ["additionalProperties"; "$schema"]))
           schema
  /\ (obj_get "additionalProperties" schema = None ->
      obj_get "$schema" schema = None ->
      strip_schema schema = schema).
Proof.
  intros Hnodup.
  assert (Heq : strip_schema schema
                = filter (fun kv => negb (includes (fst kv)
                                            ["additionalProperties"; "$schema"]))
                         schema).
  { unfold strip_schema.
    exact (copy_keeps_order schema
             (fun key => negb (includes key ["additionalProperties"; "$schema"]))
             [] schema eq_refl Hnodup). }
  split; [exact Heq |].
  intros Hno1 Hno2. rewrite Heq.
  apply obj_get_None_keys in Hno1, Hno2.
  apply forallb_filter_id. apply forallb_forall. intros [k v] Hin.
  apply negb_true_iff. cbn [fst].
  destruct (includes k ["additionalProperties"; "$schema"]) eqn:Hk; [| reflexivity].
  assert (Hkey : includes k (obj_keys schema) = true).
  { apply includes_In. unfold obj_keys. apply in_map_iff. exists (k, v). auto. }
  apply includes_In in Hk. destruct Hk as [<- | [<- | []]]; congruence.
Qed.

Lemma strip_schema_keeps_order_witness :
  strip_schema (inputSchema add_tool)
  = [("type", VStr "object");
     ("properties", VObj [("a", number_schema); ("b", number_schema)]);
     ("required", VArr [VStr "a"; VStr "b"])].
Proof.
  rewrite (proj1 (strip_schema_keeps_order (inputSchema add_tool)
                    ltac:(repeat constructor; simpl; intuition discriminate))).
  reflexivity.
Defined.

(** ** The clients that [getMCPClients] constructs *)

Lemma make_client_acceptable env config :
  acceptable config = true <-> exists c, make_client env config = Fulfilled c.
Proof.
  unfold acceptable, make_client.
  destruct (negb (obj_has "url" config)); simpl; [split; eauto |].
  destruct (value_eqb_str (obj_lookup "type" config) "http"); simpl; [split; eauto |].
  destruct (value_eqb_str (obj_lookup "type" config) "sse"); simpl; [split; eauto |].
  split; [discriminate | intros [c H]; discriminate].
Qed.

Lemma make_client_fresh env config c :
  make_client env config = Fulfilled c ->
  fresh c = {| tools := None; initialised := false |}.
Proof.
  unfold make_client.
  destruct (negb (obj_has "url" config)); [intros H; injection H as <-; reflexivity |].
  destruct (value_eqb_str (obj_lookup "type" config) "http");
    [intros H; injection H as <-; reflexivity |].
  destruct (value_eqb_str (obj_lookup "type" config) "sse");
    [intros H; injection H as <-; reflexivity | discriminate].
Qed.

(** X12. [getMCPClients] returns exactly when every descriptor either has
    no [url] key or has the type http or sse; it then returns one client
    per descriptor, none of them connected and none holding tools. *)
Theorem getMCPClients_returns_iff_acceptable env mcpConfig :
  (forallb acceptable (map snd mcpConfig) = true
   <-> exists cs, getMCPClients env mcpConfig = Fulfilled cs)
  /\ forall cs,
       getMCPClients env mcpConfig = Fulfilled cs ->
       length cs = length mcpConfig
       /\ Forall (fun c => fresh c = {| tools := None; initialised := false |}) cs.
Proof.
  induction mcpConfig as [| [nm config] rest [IHiff IHcs]]; simpl.
  - split; [split; eauto |]. intros cs H. injection H as <-. auto.
  - split.
    + rewrite andb_true_iff, IHiff, make_client_acceptable. split.
      * intros [[c ->] [cs ->]]. eauto.
      * intros [cs H].
        destruct (make_client env config) as [c | e]; [| discriminate].
        destruct (getMCPClients env rest) as [cs0 | e]; [| discriminate].
        eauto.
    + intros cs H.
      destruct (make_client env config) as [c | e] eqn:Hmake; [| discriminate].
      destruct (getMCPClients env rest) as [cs0 | e]; [| discriminate].
      injection H as <-. destruct (IHcs cs0 eq_refl) as [Hlen Hfresh].
      simpl. split; [rewrite Hlen; reflexivity |].
      constructor; [exact (make_client_fresh _ _ _ Hmake) | exact Hfresh].
Qed.

(** X13. [getMCPClients] fails fast: when the descriptors before a
    rejected one are all accepted, the error raised is the one of that
    first rejected descriptor, named after its type, whatever comes
    after it. *)
Theorem getMCPClients_first_error env accepted nm config rest :
  forallb acceptable (map snd accepted) = true ->
  acceptable config = false ->
  getMCPClients env (accepted ++ (nm, config) :: rest)
  = Rejected (Error ("Unknown transport type: "
                       ++ ToString env (obj_lookup "type" config))).
Proof.
  intros Hok Hbad. induction accepted as [| [nm0 config0] accepted IH]; simpl in *.
  - unfold make_client. unfold acceptable in Hbad.
    apply orb_false_elim in Hbad. destruct Hbad as [Hbad Hsse].
    apply orb_false_elim in Hbad. destruct Hbad as [Hurl Hhttp].
    rewrite Hurl, Hhttp, Hsse. reflexivity.
  - apply andb_prop in Hok. destruct Hok as [Hhead Htail].
    apply (make_client_acceptable env) in Hhead. destruct Hhead as [c ->].
    rewrite (IH Htail). reflexivity.
Qed.

Lemma getMCPClients_first_error_witness :
  getMCPClients demo_env
    ([("local", [("command", VStr "node"); ("type", VStr "carrier pigeon")])]
       ++ ("first", [("url", VStr "ws://a"); ("type", VStr "websocket")])
       :: [("second", [("url", VStr "x"); ("type", VStr "ftp")])])
  = Rejected (Error "Unknown transport type: websocket").
Proof.
  apply (getMCPClients_first_error demo_env); reflexivity.
Defined.

(** ** The chat session *)

Lemma print_reply_gated env reply w o w' :
  print_reply reply w = (o, w') -> gated_run env w w'.
Proof.
  unfold print_reply, throw, console_log.
  destruct (candidates reply) as [| first others];
    [intros H; injection H as _ <-; apply gated_run_refl |].
  destruct (parts (content first)) as [| part more];
    [intros H; injection H as _ <-; apply gated_run_refl |].
  intros H. injection H as _ <-. eexists. split; [reflexivity |].
  apply gated_silent. reflexivity.
Qed.

Lemma chatLoop_rounds_gated env toLowerCase rounds fuel :
  forall history w o w',
    chatLoop_rounds env toLowerCase rounds fuel history w = (o, w') ->
    gated_run env w w'.
Proof.
  induction rounds as [| rounds IH]; intros history w o w' Hrun; simpl in Hrun.
  - injection Hrun as _ <-. apply gated_run_refl.
  - apply bind_cases in Hrun.
    assert (Hask : forall o1 w1,
               await (EvQuestion you_prompt)
                     (fun tr => rl_question env tr you_prompt) w = (o1, w1) ->
               gated_run env w w1).
    { unfold await. intros o1 w1 H. exists [EvQuestion you_prompt].
      split; [| apply gated_silent; reflexivity].
      destruct (rl_question env (trace w) you_prompt); injection H as _ <-; reflexivity. }
    destruct Hrun as [[message [w1 [Hq Hrun]]] | [[e [Hq _]] | [Hq _]]];
      try exact (Hask _ _ Hq).
    apply (gated_run_trans _ _ w1); [exact (Hask _ _ Hq) |].
    destruct (String.eqb (toLowerCase message) "quit").
    + injection Hrun as _ <-. apply gated_run_refl.
    + apply bind_cases in Hrun.
      assert (Hquery : forall o2 w2,
                 processQuery env fuel message "user" history w1 = (o2, w2) ->
                 gated_run env w1 w2).
      { intros o2 w2. apply processQuery_loop_gated. }
      destruct Hrun as [[result [w2 [Hpq Hrun]]] | [[e [Hpq _]] | [Hpq _]]];
        try exact (Hquery _ _ Hpq).
      apply (gated_run_trans _ _ w2); [exact (Hquery _ _ Hpq) |].
      apply bind_cases in Hrun.
      destruct Hrun as [[u [w3 [Hprint Hrun]]] | [[e [Hprint _]] | [Hprint _]]];
        try exact (print_reply_gated _ _ _ _ _ Hprint).
      apply (gated_run_trans _ _ w3); [exact (print_reply_gated _ _ _ _ _ Hprint) |].
      exact (IH _ _ _ _ Hrun).
Qed.

(** X14. Over a whole chat session, however many lines are read and
    however it ends, every provider call comes right after the
    confirmation question for that very tool and arguments, answered with
    yes: nothing that is typed at the chat prompt, and nothing that the
    model replies, makes a tool run without that answer. *)
Theorem chatLoop_calls_are_confirmed env toLowerCase rounds fuel w :
  exists evs,
    trace (fst (snd (chatLoop env toLowerCase rounds fuel w))) = trace w ++ evs
    /\ forall before h toolName args after,
         evs = before ++ EvCallTool h toolName args :: after ->
         exists earlier,
           before = earlier ++ [EvQuestion (confirm_prompt env toolName args)]
           /\ rl_question env (trace w ++ earlier) (confirm_prompt env toolName args)
              = Fulfilled "yes".
Proof.
  unfold chatLoop. cbn [snd fst].
  destruct ((console_log (nl ++ "MCP Agent Started!");;;
             console_log "Type your queries or 'quit' to exit.";;;
             chatLoop_rounds env toLowerCase rounds fuel [system_turn]) w)
    as [o w'] eqn:Hrun.
  cbn [snd]. unfold bind at 1 in Hrun. unfold console_log at 1 in Hrun.
  unfold bind at 1 in Hrun. unfold console_log at 1 in Hrun.
  apply chatLoop_rounds_gated in Hrun.
  assert (Hbanner : gated_run env w
                      (record_event (EvLog "Type your queries or 'quit' to exit.")
                         (record_event (EvLog (nl ++ "MCP Agent Started!")) w))).
  { eexists. split; [simpl; rewrite <- app_assoc; reflexivity |].
    apply gated_silent. reflexivity. }
  exact (gated_run_trans _ _ _ _ Hbanner Hrun).
Qed.

(** X15. A final reply with an empty list of parts ends the session.
    [processQuery] takes it for final, since no part of it has a function
    call, and [chatLoop] then reads the text of a first part that is not
    there: a [TypeError], raised after the round trip and before anything
    is printed. *)
Theorem chatLoop_rounds_empty_reply env toLowerCase rounds fuel history w
  message tls w2 reply first others :
  let w1 := record_event (EvQuestion you_prompt) w in
  let asked := history ++ [{| parts := [text_part message]; role := "user" |}] in
  rl_question env (trace w) you_prompt = Fulfilled message ->
  String.eqb (toLowerCase message) "quit" = false ->
  loadTools env w1 = (Ok tls, w2) ->
  generateContent env (trace w2) model_id asked tls = Fulfilled reply ->
  candidates reply = first :: others ->
  parts (content first) = [] ->
  chatLoop_rounds env toLowerCase (S rounds) (S fuel) history w
  = (Throw TypeError, record_event (EvGenerate model_id asked tls) w2).
Proof.
  intros w1 asked Hline Hquit Hload Hreply Hcand Hempty.
  assert (Hnone : forallb no_functionCall (parts (content first)) = true).
  { rewrite Hempty. reflexivity. }
  pose proof (loop_body_Break env asked w1 tls w2 reply first others
                Hload Hreply Hcand Hnone) as Hbody.
  cbn [chatLoop_rounds]. unfold bind at 1. unfold await. rewrite Hline, Hquit.
  fold w1. unfold bind at 1. unfold processQuery. fold asked.
  cbn [processQuery_loop]. rewrite (bind_Ok _ _ _ _ _ Hbody).
  unfold ret. cbn [fst snd]. unfold bind, print_reply.
  rewrite Hcand, Hempty. reflexivity.
Qed.

Lemma chatLoop_rounds_empty_reply_witness :
  fst (chatLoop_rounds
         (scripted ["hello"] [model_reply []] demo_catalog demo_answer)
         lower 5 5 [system_turn] (startup [0; 1]))
  = Throw TypeError.
Proof.
  erewrite (chatLoop_rounds_empty_reply
              (scripted ["hello"] [model_reply []] demo_catalog demo_answer)
              lower 4 4 [system_turn] (startup [0; 1])); cycle 1.
  - reflexivity.
  - reflexivity.
  - reflexivity.
  - reflexivity.
  - reflexivity.
  - reflexivity.
  - reflexivity.
Defined.

(** X16. One turn of the chat whose reply has no function call: the
    session prints the text of the first part of the reply and nothing of
    the parts after it (the word undefined when the first part has no
    text), and goes on to the next line with the history that
    [processQuery] returned. *)
Theorem chatLoop_rounds_prints_first_part env toLowerCase rounds fuel history w
  message tls w2 reply first others part more :
  let w1 := record_event (EvQuestion you_prompt) w in
  let asked := history ++ [{| parts := [text_part message]; role := "user" |}] in
  rl_question env (trace w) you_prompt = Fulfilled message ->
  String.eqb (toLowerCase message) "quit" = false ->
  loadTools env w1 = (Ok tls, w2) ->
  generateContent env (trace w2) model_id asked tls = Fulfilled reply ->
  candidates reply = first :: others ->
  parts (content first) = part :: more ->
  Forall (fun p => functionCall p = None) (part :: more) ->
  chatLoop_rounds env toLowerCase (S rounds) (S fuel) history w
  = chatLoop_rounds env toLowerCase rounds (S fuel) (asked ++ [content first])
      (record_event
         (EvLog (nl ++ "AI: "
                    ++ match text part with Some s => s | None => "undefined" end))
         (record_event (EvGenerate model_id asked tls) w2)).
Proof.
  intros w1 asked Hline Hquit Hload Hreply Hcand Hparts Hnone.
  rewrite <- Hparts in Hnone. apply Forall_no_functionCall in Hnone.
  pose proof (loop_body_Break env asked w1 tls w2 reply first others
                Hload Hreply Hcand Hnone) as Hbody.
  cbn [chatLoop_rounds]. unfold bind at 1. unfold await. rewrite Hline, Hquit.
  fold w1. unfold bind at 1. unfold processQuery. fold asked.
  cbn [processQuery_loop]. rewrite (bind_Ok _ _ _ _ _ Hbody).
  unfold ret. cbn [fst snd]. unfold bind at 1. unfold print_reply.
  rewrite Hcand, Hparts. unfold console_log. reflexivity.
Qed.

Lemma chatLoop_rounds_prints_first_part_witness :
  let env := scripted ["hello"; "QUIT"]
               [model_reply [text_part "hi"; text_part "there"]]
               demo_catalog demo_answer in
  chatLoop_rounds env lower 2 1 [system_turn] (startup [0; 1])
  = chatLoop_rounds env lower 1 1
      ([system_turn; {| parts := [text_part "hello"]; role := "user" |}]
         ++ [{| parts := [text_part "hi"; text_part "there"]; role := "model" |}])
      (record_event (EvLog (nl ++ "AI: hi"))
         (snd (processQuery env 1 "hello" "user" [system_turn]
                 (record_event (EvQuestion you_prompt) (startup [0; 1])))))
  /\ fst (chatLoop_rounds env lower 2 1 [system_turn] (startup [0; 1])) = Ok tt.
Proof.
  intros env. split; [| reflexivity].
  erewrite (chatLoop_rounds_prints_first_part env lower 1 0 [system_turn]
              (startup [0; 1])); cycle 1.
  - reflexivity.
  - reflexivity.
  - reflexivity.
  - reflexivity.
  - reflexivity.
  - reflexivity.
  - repeat constructor.
  - reflexivity.
Defined.

(** ** Once the tools are loaded *)

Lemma untouched_run_refl w : untouched_run w w.
Proof.
  split; [reflexivity |]. split; [reflexivity |]. exists [].
  rewrite app_nil_r. auto.
Qed.

Lemma untouched_run_trans w1 w2 w3 :
  untouched_run w1 w2 -> untouched_run w2 w3 -> untouched_run w1 w3.
Proof.
  intros [Ha1 [Hc1 [evs1 [Ht1 Hs1]]]] [Ha2 [Hc2 [evs2 [Ht2 Hs2]]]].
  split; [congruence |]. split; [congruence |]. exists (evs1 ++ evs2).
  split; [rewrite Ht2, Ht1, app_assoc; reflexivity |].
  rewrite forallb_app, Hs1, Hs2. reflexivity.
Qed.

Lemma untouched_run_event ev w :
  is_setup ev = false -> untouched_run w (record_event ev w).
Proof.
  intros Hev. split; [reflexivity |]. split; [reflexivity |]. exists [ev].
  split; [reflexivity |]. simpl. rewrite Hev. reflexivity.
Qed.

Lemma callTool_untouched env h toolName args w o w' :
  callTool env h toolName args w = (o, w') -> untouched_run w w'.
Proof.
  unfold callTool, bind, await, console_log, ret.
  destruct (rl_question env (trace w) (confirm_prompt env toolName args))
    as [answer | e].
  - destruct (String.eqb answer "yes"); simpl.
    + destruct (mcp_callTool env _ h toolName args) as [raw | e];
        intros H; injection H as _ <-;
        (eapply untouched_run_trans; [| apply untouched_run_event; reflexivity]);
        apply untouched_run_event; reflexivity.
    + intros H. injection H as _ <-.
      eapply untouched_run_trans; [| apply untouched_run_event; reflexivity].
      apply untouched_run_event. reflexivity.
  - intros H. injection H as _ <-. apply untouched_run_event. reflexivity.
Qed.

Lemma dispatch_untouched env ps :
  forall acc w o w', dispatch env ps acc w = (o, w') -> untouched_run w w'.
Proof.
  induction ps as [| part ps IH]; intros acc w o w' Hrun; simpl in Hrun.
  - injection Hrun as _ <-. apply untouched_run_refl.
  - destruct (functionCall part) as [call |]; [| exact (IH _ _ _ _ Hrun)].
    unfold bind at 1 in Hrun. unfold the_cachedTools in Hrun.
    destruct (_cachedTools (agent w)) as [cache |];
      [| injection Hrun as _ <-; apply untouched_run_refl].
    destruct (obj_get (fc_name call) cache) as [entry |];
      [| injection Hrun as _ <-; apply untouched_run_refl].
    apply bind_cases in Hrun.
    destruct Hrun as [[outcome [w1 [Hcall Hrest]]] | [[e [Hcall _]] | [Hcall _]]];
      try exact (callTool_untouched _ _ _ _ _ _ _ Hcall).
    eapply untouched_run_trans;
      [exact (callTool_untouched _ _ _ _ _ _ _ Hcall) | exact (IH _ _ _ _ Hrest)].
Qed.

Lemma loop_body_untouched env cache cc w o w' :
  _cachedTools (agent w) = Some cache ->
  loop_body env cc w = (o, w') -> untouched_run w w'.
Proof.
  intros Hcache. unfold loop_body.
  rewrite (bind_Ok _ _ _ _ _ (loadTools_cached _ _ _ Hcache)).
  intros Hrun. apply bind_cases in Hrun.
  assert (Hgen : forall o1 w1,
             await (EvGenerate model_id cc (declarations cache))
                   (fun tr => generateContent env tr model_id cc (declarations cache)) w
             = (o1, w1) -> untouched_run w w1).
  { unfold await. intros o1 w1 H.
    destruct (generateContent env (trace w) model_id cc (declarations cache));
      injection H as _ <-; apply untouched_run_event; reflexivity. }
  destruct Hrun as [[reply [w1 [Hg Hrun]]] | [[e [Hg _]] | [Hg _]]];
    try exact (Hgen _ _ Hg).
  apply (untouched_run_trans _ w1); [exact (Hgen _ _ Hg) |].
  destruct (candidates reply) as [| first others].
  - injection Hrun as _ <-. apply untouched_run_refl.
  - destruct (forallb no_functionCall (parts (content first))).
    + injection Hrun as _ <-. apply untouched_run_refl.
    + apply bind_cases in Hrun.
      destruct Hrun as [[frs [w2 [Hdisp Hrun]]] | [[e [Hdisp _]] | [Hdisp _]]];
        try exact (dispatch_untouched _ _ _ _ _ _ Hdisp).
      injection Hrun as _ <-. exact (dispatch_untouched _ _ _ _ _ _ Hdisp).
Qed.

(** X17. Once the cache of tools exists, a run of [processQuery],
    whatever its fuel and its outcome, changes neither the agent (the
    cache stays as it is) nor any client, and sends no connection or
    listing request: providers are only ever set up by the first
    [loadTools]. *)
Theorem processQuery_after_load env cache fuel query role savedContent w :
  _cachedTools (agent w) = Some cache ->
  let w' := snd (processQuery env fuel query role savedContent w) in
  agent w' = agent w
  /\ clients w' = clients w
  /\ exists evs,
       trace w' = trace w ++ evs
       /\ (forall h, connect_queries h evs = 0 /\ listTools_queries h evs = 0).
Proof.
  intros Hcache w'.
  assert (Hrun : untouched_run w w').
  { subst w'. unfold processQuery.
    generalize (savedContent ++ [{| parts := [text_part query]; role := role |}]).
    clear query role savedContent. revert w Hcache.
    induction fuel as [| fuel IH]; intros w Hcache cc; simpl.
    - apply untouched_run_refl.
    - unfold bind.
      destruct (loop_body env cc w) as [[step | e |] w1] eqn:Hbody;
        pose proof (loop_body_untouched _ _ _ _ _ _ Hcache Hbody) as Hstep;
        simpl; try exact Hstep.
      destruct step as [result | cc']; [exact Hstep |].
      eapply untouched_run_trans; [exact Hstep |].
      apply IH. destruct Hstep as [Hagent _]. rewrite Hagent. exact Hcache. }
  destruct Hrun as [Hagent [Hclients [evs [Htrace Hquiet]]]].
  split; [exact Hagent |]. split; [exact Hclients |].
  exists evs. split; [exact Htrace |].
  intros h. clear Htrace. induction evs as [| ev evs IH]; simpl; [auto |].
  simpl in Hquiet. apply andb_prop in Hquiet. destruct Hquiet as [Hev Hevs].
  destruct (IH Hevs) as [Hc Hl].
  destruct ev; simpl in Hev; try discriminate; simpl; auto.
Qed.

Lemma processQuery_after_load_witness :
  let w := snd (loadTools flaky_env (startup [0; 1; 2])) in
  clients (snd (processQuery flaky_env 3 "again" "user" [] w)) = clients w
  /\ tools (clients w 2) = None.
Proof.
  intros w. split; [| reflexivity].
  apply (processQuery_after_load flaky_env
           (register_all (registrations (clients w) [0]) []) 3 "again" "user" [] w).
  reflexivity.
Defined.
